(** * codex_ea.main: a shallow embedding and its verified properties

  The program is a command-line probe: it reads its configuration from the
  process environment (after an optional [.env] file), reads two optional
  prompt files, assembles one streaming request, and prints the streamed
  text deltas.

  Python values are modelled dynamically ([Value]), dictionaries with string
  keys as [gmap string Value], and the effects of the program (environment
  mutation, writes to the standard streams, SDK calls, exceptions) in a
  small state-and-exception monad [M] whose state carries [os.environ] and
  the chronological trace of observable effects.  What surrounds a run (the
  initial environment, the files, the behaviour of the remote API) is a
  [World].

  Modelling choices: a character of a string is a code point below 256; a
  prompt file is either not a regular file or readable text; constructing
  the clients and writing to the standard streams do not raise.  The
  libraries the program calls (python-dotenv, the openai SDK's stream
  manager) are modelled by the behaviour the program relies on; the values
  of a [.env] file are taken as written, without the expansion of
  [${NAME}] references, so a property about a value that the file supplies
  is stated for values free of such references. *)

From Stdlib Require Import ZArith Ascii String.
From stdpp Require Import gmap strings list fin_maps.

Set Warnings "-register-all".

(** ** Python strings and values *)

Module Py.

(** The newline character written by [print]. *)
Definition LF : string := String "010"%char "".

(** [str.isspace] on one character.  A character of a Rocq string stands
    for a code point below 256; in that range Python's whitespace code
    points are U+0009..U+000D, U+001C..U+001F, U+0020, U+0085 and U+00A0. *)
Definition isspace (c : ascii) : bool :=
  let n := nat_of_ascii c in
  ((9 <=? n) && (n <=? 13) || (28 <=? n) && (n <=? 31)
   || (n =? 32) || (n =? 133) || (n =? 160))%nat.

(** [str.lstrip()], [str.rstrip()] and [str.strip()] with no argument. *)
Fixpoint lstrip (s : string) : string :=
  match s with
  | EmptyString => EmptyString
  | String c r => if isspace c then lstrip r else s
  end.

Fixpoint rstrip (s : string) : string :=
  match s with
  | EmptyString => EmptyString
  | String c r =>
      match rstrip r with
      | EmptyString => if isspace c then EmptyString else String c EmptyString
      | r' => String c r'
      end
  end.

Definition strip (s : string) : string := rstrip (lstrip s).

(** The dynamically typed values the program handles ([Any]). *)
Inductive Value :=
| VNone
| VBool (b : bool)
| VStr (s : string)
| VList (l : list Value)
| VDict (items : list (string * Value))
| VHttpxClient (verify : bool).

(** Python truth value testing ([if x:], [not x], [x or y]). *)
Definition truthy (v : Value) : bool :=
  match v with
  | VNone => false
  | VBool b => b
  | VStr s => negb (String.eqb s "")
  | VList l => match l with [] => false | _ => true end
  | VDict d => match d with [] => false | _ => true end
  | VHttpxClient _ => true
  end.

(** [x or y]. *)
Definition or_ (x y : Value) : Value := if truthy x then x else y.

(** [v == s] for a string literal [s]. *)
Definition eq_str (v : Value) (s : string) : bool :=
  match v with
  | VStr x => String.eqb x s
  | _ => false
  end.

(** Exceptions: [SystemExit] raised by [sys.exit], and every other
    exception, named by its class. *)
Inductive Exn :=
| SystemExit (code : Z)
| Exception (name : string).

(** All characters of [s] are whitespace. *)
Fixpoint all_space (s : string) : bool :=
  match s with
  | EmptyString => true
  | String c r => isspace c && all_space r
  end.

(** Number of newline characters in a string. *)
Fixpoint count_LF (s : string) : nat :=
  match s with
  | EmptyString => 0
  | String c r => (if Ascii.eqb c "010"%char then 1 else 0) + count_LF r
  end.

(** [s] ends with a newline ([s.endswith("\n")]). *)
Fixpoint ends_with_LF (s : string) : bool :=
  match s with
  | EmptyString => false
  | String c EmptyString => Ascii.eqb c "010"%char
  | String _ r => ends_with_LF r
  end.

End Py.
Import Py.

(** Keyword arguments and dictionaries with optional keys. *)
Abbreviation Kwargs := (gmap string Value).

(** ** Observable effects and the program monad *)

Inductive Fd := Stdout | Stderr.

(** One observable action of a run, in the order the run performs them. *)
Inductive Effect :=
| Write (fd : Fd) (s : string)            (* [sys.stdout.write] / [sys.stderr.write] *)
| Flush (fd : Fd)                         (* [flush=True] *)
| NewHttpxClient (verify : bool)          (* [httpx.Client(verify=...)] *)
| NewOpenAI (kwargs : Kwargs)             (* [OpenAI] called with [kwargs] *)
| ResponsesStream (client request : Kwargs) (* [client.responses.stream] called with [request] *)
| StreamClose                             (* the stream manager's [__exit__] *)
| GetFinalResponse.                       (* [stream.get_final_response()] *)

(** The mutable state of a run: [os.environ] and the trace so far. *)
Record State := mkState {
  os_environ : gmap string string;
  trace : list Effect
}.

Inductive Res (A : Type) :=
| Ret (a : A)
| Raise (e : Exn).
Arguments Ret {A} a.
Arguments Raise {A} e.

Definition M (A : Type) : Type := State → Res A * State.

#[export] Instance M_ret : MRet M := λ A a st, (Ret a, st).

#[export] Instance M_bind : MBind M := λ A B f m st,
  match m st with
  | (Ret a, st') => f a st'
  | (Raise e, st') => (Raise e, st')
  end.

Definition raise {A} (e : Exn) : M A := λ st, (Raise e, st).

Definition emit (e : Effect) : M unit :=
  λ st, (Ret tt, mkState (os_environ st) (trace st ++ [e])).

Definition get_environ : M (gmap string string) := λ st, (Ret (os_environ st), st).

Definition put_environ (env : gmap string string) : M unit :=
  λ st, (Ret tt, mkState env (trace st)).

(** [os.getenv(key)] and [os.getenv(key, default)]. *)
Definition getenv_in (env : gmap string string) (key : string) : Value :=
  match env !! key with
  | Some v => VStr v
  | None => VNone
  end.

Definition os_getenv (key : string) : M Value :=
  env ← get_environ; mret (getenv_in env key).

Definition os_getenv_default (key default : string) : M Value :=
  env ← get_environ;
  mret (match env !! key with Some v => VStr v | None => VStr default end).

(** [sys.stderr.write(s)], [sys.exit(code)] and
    [print] of [objects] with [end=end_] and [flush=True]. *)
Definition sys_stderr_write (s : string) : M unit := emit (Write Stderr s).

Definition sys_exit {A} (code : Z) : M A := raise (SystemExit code).

Fixpoint print_objects (objects : list string) : M unit :=
  match objects with
  | [] => mret tt
  | [o] => emit (Write Stdout o)
  | o :: rest => emit (Write Stdout o) ;; emit (Write Stdout " ") ;; print_objects rest
  end.

Definition print (objects : list string) (end_ : string) : M unit :=
  print_objects objects ;; emit (Write Stdout end_) ;; emit (Flush Stdout).

(** The [with] statement: [exit_] runs on every path out of the body, and
    the body's exception propagates unless [exit_] returns a true value. *)
Definition with_ {R} (enter : M R) (exit_ : R → M bool) (body : R → M unit) : M unit :=
  λ st,
    match enter st with
    | (Raise e, st0) => (Raise e, st0)
    | (Ret r, st0) =>
        match body r st0 with
        | (Ret _, st') =>
            match exit_ r st' with
            | (Ret _, st'') => (Ret tt, st'')
            | (Raise e', st'') => (Raise e', st'')
            end
        | (Raise e, st') =>
            match exit_ r st' with
            | (Ret suppress, st'') => if suppress then (Ret tt, st'') else (Raise e, st'')
            | (Raise e', st'') => (Raise e', st'')
            end
        end
    end.

(** The exit status of the interpreter: 0 on normal return, the code of an
    uncaught [SystemExit], 1 for any other uncaught exception. *)
Definition exit_status (r : Res unit) : Z :=
  match r with
  | Ret _ => 0
  | Raise (SystemExit code) => code
  | Raise (Exception _) => 1
  end%Z.

(** Projections of a trace. *)
Fixpoint written (fd : Fd) (t : list Effect) : string :=
  match t with
  | [] => ""
  | Write fd' s :: t' =>
      match fd, fd' with
      | Stdout, Stdout | Stderr, Stderr => s +:+ written fd t'
      | _, _ => written fd t'
      end
  | _ :: t' => written fd t'
  end.

Fixpoint requests (t : list Effect) : list (Kwargs * Kwargs) :=
  match t with
  | [] => []
  | ResponsesStream c r :: t' => (c, r) :: requests t'
  | _ :: t' => requests t'
  end.

Fixpoint clients (t : list Effect) : list Kwargs :=
  match t with
  | [] => []
  | NewOpenAI k :: t' => k :: clients t'
  | _ :: t' => clients t'
  end.

Fixpoint closes (t : list Effect) : nat :=
  match t with
  | [] => 0
  | StreamClose :: t' => S (closes t')
  | _ :: t' => closes t'
  end.

(** ** The libraries the program calls *)

(** python-dotenv's [load_dotenv], on the bindings parsed from the file. *)
Module Dotenv.

(** The bindings parsed from a [.env] file, in file order; a key with no
    [=] has no value. *)
Abbreviation Bindings := (list (string * option string)).

(** The bindings are collected in a dictionary: a later binding of a key
    replaces an earlier one. *)
Definition to_dict (bs : Bindings) : gmap string (option string) :=
  foldl (λ d kv, <[kv.1 := kv.2]> d) ∅ bs.

(** [set_as_environment_variables] copies each item of the dictionary to
    [os.environ]; it skips a key that is already set unless [override], and
    a key with no value. *)
Definition set_one (override : bool) (env : gmap string string)
    (kv : string * option string) : gmap string string :=
  if bool_decide (is_Some (env !! kv.1)) && negb override then env
  else match kv.2 with
       | Some v => <[kv.1 := v]> env
       | None => env
       end.

Definition set_as_environment_variables (override : bool)
    (d : gmap string (option string)) (env : gmap string string) : gmap string string :=
  foldl (set_one override) env (map_to_list d).

(** [load_dotenv(dotenv_path=path, override=override)]; a missing file
    leaves the environment unchanged. *)
Definition load_values (dotenv_files : gmap string Bindings)
    (dotenv_path : string) (override : bool) (env : gmap string string) : gmap string string :=
  match dotenv_files !! dotenv_path with
  | None => env
  | Some bs => set_as_environment_variables override (to_dict bs) env
  end.

Definition load_dotenv (dotenv_files : gmap string Bindings)
    (dotenv_path : string) (override : bool) : M unit :=
  env ← get_environ;
  put_environ (load_values dotenv_files dotenv_path override env).

End Dotenv.

(** The part of the openai SDK the program uses: the events of a response
    stream and the stream manager. *)
Module Sdk.

(** A stream event as the program reads it: its [type] tag, and the [delta]
    attribute, which the program reads on text-delta events only. *)
Record ResponseStreamEvent := mkEvent {
  type : string;
  delta : string
}.

(** An iterable: the items it yields, then either exhaustion or an
    exception raised by the iterator. *)
Record Iterable (A : Type) := mkIterable {
  items : list A;
  raises : option Exn
}.
Arguments mkIterable {A} items raises.
Arguments items {A} i.
Arguments raises {A} i.

(** An entered response stream: the events it delivers and the outcome of
    [get_final_response()]. *)
Record ResponseStream := mkStream {
  stream_events : Iterable ResponseStreamEvent;
  final_response : option Exn
}.

(** [client.responses.stream] called with the request, followed by the
    manager's [__enter__], which sends the request: the remote [api] answers
    with the error raised on entering or with the stream. *)
Definition responses_stream (api : Kwargs → Kwargs → Exn + ResponseStream)
    (client stream_kwargs : Kwargs) : M ResponseStream :=
  emit (ResponsesStream client stream_kwargs) ;;
  match api client stream_kwargs with
  | inl e => raise e
  | inr stream => mret stream
  end.

(** The manager's [__exit__]: it closes the stream and returns [None], a
    false value, so an exception of the body is not suppressed. *)
Definition stream_exit (stream : ResponseStream) : M bool :=
  emit StreamClose ;; mret false.

(** [stream.get_final_response()]. *)
Definition get_final_response (stream : ResponseStream) : M unit :=
  emit GetFinalResponse ;;
  match final_response stream with
  | Some e => raise e
  | None => mret tt
  end.

End Sdk.
Import Sdk.

(** The surroundings of one run. *)
Record World := mkWorld {
  (* the process environment at start *)
  environ : gmap string string;
  (* parsed dotenv files of the working directory, by path *)
  dotenv_files : gmap string Dotenv.Bindings;
  (* regular text files of the package directory, by relative path *)
  files : gmap string string;
  (* the remote API: for a client and a request, either the error raised on
     entering the stream or the stream *)
  api : Kwargs → Kwargs → Exn + ResponseStream
}.

(** [for x in it: body], over an iterable that may raise. *)
Fixpoint for_items {A} (xs : list A) (end_ : option Exn) (body : A → M unit) : M unit :=
  match xs with
  | [] => match end_ with
          | Some e => raise e
          | None => mret tt
          end
  | x :: rest => body x ;; for_items rest end_ body
  end.

Definition for_ {A} (it : Iterable A) (body : A → M unit) : M unit :=
  for_items (items it) (raises it) body.

(** ** The program: codex_ea/main.py *)

Definition PROMPT_TEXT : string :=
  "What model are you, and what application are you currently being used inside of?".

Definition INSTRUCTIONS_FILE : string := "prompts/instructions.txt".
Definition SYSTEM_PROMPT_FILE : string := "prompts/system.txt".

Section Program.

Variable w : World.

Definition build_openai_client (api_key : Value) : M Kwargs :=
  v ← os_getenv "OPENAI_ALLOW_INSECURE_SSL";
  let allow_insecure := eq_str v "1" in
  let client_kwargs : Kwargs := {[ "api_key" := api_key ]} in
  base_url ← os_getenv "OPENAI_BASE_URL";
  let client_kwargs : Kwargs :=
    if truthy base_url then <["base_url" := base_url]> client_kwargs
    else client_kwargs in
  client_kwargs ←
    (if allow_insecure
     then emit (NewHttpxClient false) ;;
          mret (<["http_client" := VHttpxClient false]> client_kwargs)
     else mret client_kwargs);
  emit (NewOpenAI client_kwargs) ;;
  mret client_kwargs.

Definition load_instructions : Value :=
  match files w !! INSTRUCTIONS_FILE with
  | None => VNone
  | Some text =>
      let instructions := VStr (strip text) in
      or_ instructions VNone
  end.

Definition load_system_prompt : Value :=
  match files w !! SYSTEM_PROMPT_FILE with
  | None => VNone
  | Some text =>
      let instructions := VStr (strip text) in
      or_ instructions VNone
  end.

Definition stream_response_text (events : Iterable ResponseStreamEvent) : M unit :=
  for_ events (λ event,
    if String.eqb (type event) "response.output_text.delta" then
      print [delta event] ""
    else if String.eqb (type event) "response.completed" then
      print [] LF
    else mret tt).

Definition input_messages (sys_prompt : Value) : Value :=
  VList [
    VDict [("role", VStr "system"); ("content", sys_prompt)];
    VDict [("role", VStr "user");
           ("content", VList [VDict [("type", VStr "input_text");
                                      ("text", VStr PROMPT_TEXT)]])]
  ].

Definition main : M unit :=
  Dotenv.load_dotenv (dotenv_files w) ".env" false ;;
  api_key ← os_getenv "OPENAI_API_KEY";
  (if negb (truthy api_key) then
     sys_stderr_write ("Missing OPENAI_API_KEY environment variable." +:+ LF) ;;
     sys_exit 1
   else mret tt) ;;
  model ← os_getenv_default "OPENAI_MODEL" "gpt-5";
  client ← build_openai_client api_key;
  let instructions := load_instructions in
  let sys_prompt := load_system_prompt in
  let stream_kwargs : Kwargs :=
    <["store" := VBool false]>
      (<["input" := input_messages sys_prompt]> {[ "model" := model ]}) in
  let stream_kwargs : Kwargs :=
    if truthy instructions then <["instructions" := instructions]> stream_kwargs
    else stream_kwargs in
  with_ (responses_stream (api w) client stream_kwargs) stream_exit (λ stream,
    stream_response_text (stream_events stream) ;;
    get_final_response stream).

(** A whole run of the program from the world's initial environment: the
    result of [main] and the final state. *)
Definition run : Res unit * State := main (mkState (environ w) []).

End Program.

(** ** Vocabulary of the properties *)

(** The environment the program reads its configuration from: the process
    environment after [load_dotenv(dotenv_path=".env", override=False)]. *)
Definition loaded_environ (w : World) : gmap string string :=
  Dotenv.load_values (dotenv_files w) ".env" false (environ w).

(** Whether the transport of a client verifies TLS certificates: the
    [verify] flag of the [http_client] it was given, and the SDK's default
    transport, which verifies, when it was given none. *)
Definition tls_verify (client : Kwargs) : bool :=
  match client !! "http_client" with
  | Some (VHttpxClient verify) => verify
  | _ => true
  end.

(** Where the [OpenAI] constructor takes its endpoint from: the [base_url]
    argument when one is passed; otherwise the value of [OPENAI_BASE_URL],
    which the constructor then reads from the environment itself; otherwise
    the vendor's default endpoint. *)
Inductive Endpoint :=
| FromArgument (base_url : Value)
| FromEnvironment (value : string)
| VendorDefault.

Definition endpoint_choice (env : gmap string string) (client : Kwargs) : Endpoint :=
  match client !! "base_url" with
  | Some VNone | None =>
      match env !! "OPENAI_BASE_URL" with
      | Some v => FromEnvironment v
      | None => VendorDefault
      end
  | Some v => FromArgument v
  end.

(** Whether a [.env] value contains the opening of a [${NAME}] reference,
    which python-dotenv would expand; a value without one is taken as it
    is written. *)
Fixpoint has_interpolation (s : string) : bool :=
  match s with
  | EmptyString => false
  | String c r =>
      match r with
      | String c' _ =>
          (Ascii.eqb c "$" && Ascii.eqb c' "{") || has_interpolation r
      | EmptyString => false
      end
  end.

(** The text one event contributes to standard output, as the
    specification words it: the delta of a text-delta event, one newline
    for a completion event, nothing for any other kind. *)
Definition event_text (e : ResponseStreamEvent) : string :=
  if String.eqb (type e) "response.output_text.delta" then delta e
  else if String.eqb (type e) "response.completed" then LF
  else "".

Definition is_delta (e : ResponseStreamEvent) : bool :=
  String.eqb (type e) "response.output_text.delta".

Definition is_completed (e : ResponseStreamEvent) : bool :=
  String.eqb (type e) "response.completed".

Fixpoint concat_text (evs : list ResponseStreamEvent) : string :=
  match evs with
  | [] => ""
  | e :: rest => event_text e +:+ concat_text rest
  end.

(** The concatenation of the deltas of the text-delta events alone. *)
Fixpoint concat_deltas (evs : list ResponseStreamEvent) : string :=
  match evs with
  | [] => ""
  | e :: rest => (if is_delta e then delta e else "") +:+ concat_deltas rest
  end.

(** The number of completion events. *)
Fixpoint completions (evs : list ResponseStreamEvent) : nat :=
  match evs with
  | [] => 0
  | e :: rest => (if is_completed e then 1 else 0) + completions rest
  end.

(** The effects of consuming the events, and of building the client. *)
Definition event_effects (e : ResponseStreamEvent) : list Effect :=
  if String.eqb (type e) "response.output_text.delta" then
    [Write Stdout (delta e); Write Stdout ""; Flush Stdout]
  else if String.eqb (type e) "response.completed" then
    [Write Stdout LF; Flush Stdout]
  else [].

Fixpoint stream_effects (evs : list ResponseStreamEvent) : list Effect :=
  match evs with
  | [] => []
  | e :: rest => event_effects e ++ stream_effects rest
  end.

Definition client_kwargs_of (env : gmap string string) (api_key : Value) : Kwargs :=
  let base : Kwargs := {[ "api_key" := api_key ]} in
  let with_url : Kwargs :=
    if truthy (getenv_in env "OPENAI_BASE_URL")
    then <["base_url" := getenv_in env "OPENAI_BASE_URL"]> base else base in
  if eq_str (getenv_in env "OPENAI_ALLOW_INSECURE_SSL") "1"
  then <["http_client" := VHttpxClient false]> with_url else with_url.

Definition client_effects (env : gmap string string) (api_key : Value) : list Effect :=
  (if eq_str (getenv_in env "OPENAI_ALLOW_INSECURE_SSL") "1"
   then [NewHttpxClient false] else [])
  ++ [NewOpenAI (client_kwargs_of env api_key)].

Definition stream_kwargs_of (w : World) (env : gmap string string) : Kwargs :=
  let base : Kwargs :=
    <["store" := VBool false]>
      (<["input" := input_messages (load_system_prompt w)]>
         {[ "model" := match env !! "OPENAI_MODEL" with
                       | Some v => VStr v
                       | None => VStr "gpt-5"
                       end ]}) in
  if truthy (load_instructions w)
  then <["instructions" := load_instructions w]> base else base.

(** The API key the program resolves, the client it builds and the request
    it assembles. *)
Definition resolved_key (w : World) : Value :=
  getenv_in (loaded_environ w) "OPENAI_API_KEY".

Definition the_client (w : World) : Kwargs :=
  client_kwargs_of (loaded_environ w) (resolved_key w).

Definition the_request (w : World) : Kwargs :=
  stream_kwargs_of w (loaded_environ w).

(** Trace up to and including the request. *)
Definition prefix_trace (w : World) : list Effect :=
  client_effects (loaded_environ w) (resolved_key w)
  ++ [ResponsesStream (the_client w) (the_request w)].

(** Result and remaining trace of the [with] block on an entered stream. *)
Definition stream_outcome (s : ResponseStream) : Res unit :=
  match raises (stream_events s) with
  | Some e => Raise e
  | None => match final_response s with
            | Some e => Raise e
            | None => Ret tt
            end
  end.

Definition stream_trace (s : ResponseStream) : list Effect :=
  stream_effects (items (stream_events s))
  ++ match raises (stream_events s) with
     | Some _ => [StreamClose]
     | None => [GetFinalResponse; StreamClose]
     end.

(** The text on standard output after consuming [evs] from a fresh state. *)
Definition consumer_output (evs : list ResponseStreamEvent) (end_ : option Exn) : string :=
  written Stdout
    (trace (stream_response_text (mkIterable evs end_) (mkState ∅ [])).2).

(** Whether the client built under a given value of the flag verifies. *)
Definition tls_verify_with (flag : option string) : bool :=
  let env : gmap string string :=
    match flag with
    | Some v => {[ "OPENAI_ALLOW_INSECURE_SSL" := v ]}
    | None => ∅
    end in
  match (build_openai_client (VStr "sk-test") (mkState env [])).1 with
  | Ret client => tls_verify client
  | Raise _ => true
  end.

(** ** Sample worlds *)

Definition delta_event (text : string) : ResponseStreamEvent :=
  mkEvent "response.output_text.delta" text.

Definition completed_event : ResponseStreamEvent :=
  mkEvent "response.completed" "".

(** The key is set in the environment and in [.env]; the instructions file
    holds [X] with whitespace around it, the system-prompt file only
    whitespace; the remote streams two deltas and completes. *)
Definition demo_world : World :=
  mkWorld
    {[ "OPENAI_API_KEY" := "sk-env" ]}
    {[ ".env" := [("OPENAI_API_KEY", Some "sk-file");
                  ("OPENAI_MODEL", Some "gpt-5-codex")] ]}
    {[ INSTRUCTIONS_FILE := "  " +:+ "X" +:+ LF;
       SYSTEM_PROMPT_FILE := " " +:+ LF ]}
    (λ _ _, inr (mkStream
                   (mkIterable [delta_event "Hi"; delta_event " there";
                                completed_event] None)
                   None)).

(** The remote delivers one delta and then the transport fails. *)
Definition failing_world : World :=
  mkWorld
    {[ "OPENAI_API_KEY" := "sk-env" ]} ∅ ∅
    (λ _ _, inr (mkStream
                   (mkIterable [delta_event "Hi"]
                               (Some (Exception "httpx.ReadError")))
                   None)).

(** No key anywhere: neither the environment nor [.env] sets it. *)
Definition keyless_world : World :=
  mkWorld
    {[ "OPENAI_MODEL" := "gpt-5" ]}
    {[ ".env" := [("OPENAI_BASE_URL", Some "http://localhost:8080/v1")] ]}
    ∅
    (λ _ _, inl (Exception "openai.APIConnectionError")).

(** ** Further vocabulary and sample worlds *)

(** The number of flushes of standard output in a trace. *)
Fixpoint flushes (t : list Effect) : nat :=
  match t with
  | [] => 0
  | Flush Stdout :: t' => S (flushes t')
  | _ :: t' => flushes t'
  end.

(** The number of [get_final_response] calls in a trace. *)
Fixpoint final_response_calls (t : list Effect) : nat :=
  match t with
  | [] => 0
  | GetFinalResponse :: t' => S (final_response_calls t')
  | _ :: t' => final_response_calls t'
  end.

(** The event kinds the consumer acts on. *)
Definition recognised (e : ResponseStreamEvent) : bool :=
  is_delta e || is_completed e.

(** The first character of a string is not whitespace (vacuous for the
    empty string), and likewise the last. *)
Definition head_not_space (s : string) : bool :=
  match s with
  | EmptyString => true
  | String c _ => negb (isspace c)
  end.

Fixpoint last_not_space (s : string) : bool :=
  match s with
  | EmptyString => true
  | String c EmptyString => negb (isspace c)
  | String _ r => last_not_space r
  end.

(** The key is present but the remote refuses the connection. *)
Definition refused_world : World :=
  mkWorld
    {[ "OPENAI_API_KEY" := "sk-other";
       "OPENAI_BASE_URL" := "http://localhost:8080/v1" ]} ∅ ∅
    (λ _ _, inl (Exception "openai.APIConnectionError")).

(** The events arrive, but the final response cannot be produced. *)
Definition unfinished_world : World :=
  mkWorld
    {[ "OPENAI_API_KEY" := "sk-env" ]} ∅ ∅
    (λ _ _, inr (mkStream
                   (mkIterable [delta_event "Hi"; mkEvent "response.created" ""]
                               None)
                   (Some (Exception "RuntimeError")))).

(** The environment sets the key to the empty string; [.env] has a key. *)
Definition empty_key_world : World :=
  mkWorld
    {[ "OPENAI_API_KEY" := "" ]}
    {[ ".env" := [("OPENAI_API_KEY", Some "sk-file")] ]}
    ∅
    (λ _ _, inl (Exception "openai.APIConnectionError")).

(** The environment is empty; [.env] binds the key twice, the flag that
    switches off verification, and the system-prompt file has text. *)
Definition dotenv_world : World :=
  mkWorld
    ∅
    {[ ".env" := [("OPENAI_API_KEY", Some "sk-old");
                  ("OPENAI_API_KEY", Some "sk-file");
                  ("OPENAI_ALLOW_INSECURE_SSL", Some "1")] ]}
    {[ SYSTEM_PROMPT_FILE := LF +:+ "Be brief." +:+ " " ]}
    (λ _ _, inr (mkStream (mkIterable [completed_event] None) None)).

(** The model variable is set to the empty string. *)
Definition empty_model_world : World :=
  mkWorld
    {[ "OPENAI_API_KEY" := "sk-env"; "OPENAI_MODEL" := "" ]} ∅ ∅
    (λ _ _, inr (mkStream (mkIterable [] None) None)).

(** ** Proof automation *)

Ltac unfold_M :=
  unfold mbind, M_bind, mret, M_ret, raise, emit, get_environ, put_environ,
    os_getenv, os_getenv_default, sys_stderr_write, sys_exit in *.

Ltac absent_in H :=
  repeat (apply elem_of_cons in H as [H|H]; [discriminate H|]);
  by apply elem_of_nil in H.

(** ** Basic facts *)

Lemma append_cons c s t : String c s +:+ t = String c (s +:+ t).
Proof. reflexivity. Qed.

Lemma append_nil_l s : "" +:+ s = s.
Proof. reflexivity. Qed.

Lemma append_nil_r s : s +:+ "" = s.
Proof. induction s as [|c s IH]; [done|]. by rewrite append_cons, IH. Qed.

Lemma append_assoc s t u : (s +:+ t) +:+ u = s +:+ (t +:+ u).
Proof. induction s as [|c s IH]; [done|]. by rewrite !append_cons, IH. Qed.

Lemma written_app fd t1 t2 :
  written fd (t1 ++ t2) = written fd t1 +:+ written fd t2.
Proof.
  induction t1 as [|e t1 IH]; simpl; [done|].
  destruct e as [fd' s| | | | | |]; try done.
  destruct fd, fd'; rewrite ?IH; try done; by rewrite append_assoc.
Qed.

Lemma requests_app t1 t2 : requests (t1 ++ t2) = requests t1 ++ requests t2.
Proof.
  induction t1 as [|e t1 IH]; simpl; [done|].
  destruct e; simpl; by rewrite ?IH.
Qed.

Lemma clients_app t1 t2 : clients (t1 ++ t2) = clients t1 ++ clients t2.
Proof.
  induction t1 as [|e t1 IH]; simpl; [done|].
  destruct e; simpl; by rewrite ?IH.
Qed.

Lemma closes_app t1 t2 : closes (t1 ++ t2) = closes t1 + closes t2.
Proof.
  induction t1 as [|e t1 IH]; simpl; [done|].
  destruct e; simpl; by rewrite ?IH.
Qed.

(** ** What each function does to the state *)

Lemma load_dotenv_run fs path override env t :
  Dotenv.load_dotenv fs path override (mkState env t)
  = (Ret tt, mkState (Dotenv.load_values fs path override env) t).
Proof. reflexivity. Qed.

Lemma build_openai_client_run api_key env t :
  build_openai_client api_key (mkState env t)
  = (Ret (client_kwargs_of env api_key),
     mkState env (t ++ client_effects env api_key)).
Proof.
  unfold build_openai_client, client_effects, client_kwargs_of. unfold_M. simpl.
  destruct (eq_str _ "1"); simpl; [|done].
  by rewrite <- app_assoc.
Qed.

Lemma stream_response_text_run it env t :
  stream_response_text it (mkState env t)
  = (match raises it with Some e => Raise e | None => Ret tt end,
     mkState env (t ++ stream_effects (items it))).
Proof.
  destruct it as [evs end_]. unfold stream_response_text, for_. simpl.
  revert t. induction evs as [|e evs IH]; intros t; simpl.
  - rewrite app_nil_r. by destruct end_.
  - unfold event_effects.
    unfold mbind at 1, M_bind at 1.
    destruct (String.eqb (type e) "response.output_text.delta").
    + unfold print. unfold_M. simpl. rewrite IH.
      by rewrite <- !app_assoc.
    + destruct (String.eqb (type e) "response.completed").
      * unfold print. unfold_M. simpl. rewrite IH.
        by rewrite <- !app_assoc.
      * unfold_M. simpl. rewrite IH. done.
Qed.

(** ** The shape of a whole run *)

Lemma run_missing_key w :
  truthy (resolved_key w) = false →
  run w = (Raise (SystemExit 1),
           mkState (loaded_environ w)
             [Write Stderr ("Missing OPENAI_API_KEY environment variable." +:+ LF)]).
Proof.
  intros Hk. unfold run, main.
  unfold mbind at 1, M_bind at 1. rewrite load_dotenv_run.
  fold (loaded_environ w). unfold_M. simpl.
  fold (resolved_key w). by rewrite Hk.
Qed.

Lemma run_enter_fails w e :
  truthy (resolved_key w) = true →
  api w (the_client w) (the_request w) = inl e →
  run w = (Raise e, mkState (loaded_environ w) (prefix_trace w)).
Proof.
  intros Hk Hapi. unfold run, main.
  unfold mbind at 1, M_bind at 1. rewrite load_dotenv_run.
  fold (loaded_environ w).
  unfold mbind at 1, M_bind at 1, os_getenv at 1. unfold_M. simpl.
  fold (resolved_key w). rewrite Hk. simpl.
  rewrite build_openai_client_run.
  unfold with_, responses_stream. unfold_M. simpl.
  fold (stream_kwargs_of w (loaded_environ w)).
  fold (the_request w). fold (the_client w). rewrite Hapi.
  unfold prefix_trace. done.
Qed.

Lemma run_entered w s :
  truthy (resolved_key w) = true →
  api w (the_client w) (the_request w) = inr s →
  run w = (stream_outcome s,
           mkState (loaded_environ w) (prefix_trace w ++ stream_trace s)).
Proof.
  intros Hk Hapi. unfold run, main.
  unfold mbind at 1, M_bind at 1. rewrite load_dotenv_run.
  fold (loaded_environ w).
  unfold mbind at 1, M_bind at 1, os_getenv at 1. unfold_M. simpl.
  fold (resolved_key w). rewrite Hk. simpl.
  rewrite build_openai_client_run.
  unfold with_, responses_stream. unfold_M. simpl.
  fold (stream_kwargs_of w (loaded_environ w)).
  fold (the_request w). fold (the_client w). rewrite Hapi.
  rewrite stream_response_text_run.
  unfold stream_outcome, stream_trace, prefix_trace, get_final_response, stream_exit.
  unfold_M. simpl.
  destruct (raises (stream_events s)); simpl.
  - by rewrite <- !app_assoc.
  - destruct (final_response s); simpl; by rewrite <- !app_assoc.
Qed.

(** ** The stream consumer *)

Lemma delta_not_completed e : is_delta e = true → is_completed e = false.
Proof.
  unfold is_delta, is_completed. intros H.
  apply String.eqb_eq in H. by rewrite H.
Qed.

Lemma written_stream_effects evs :
  written Stdout (stream_effects evs) = concat_text evs.
Proof.
  induction evs as [|e evs IH]; simpl; [done|].
  rewrite written_app, IH. f_equal.
  unfold event_effects, event_text.
  destruct (String.eqb (type e) "response.output_text.delta"); simpl.
  - by rewrite append_nil_l, append_nil_r.
  - destruct (String.eqb (type e) "response.completed"); simpl; [|done].
    by rewrite append_nil_r.
Qed.

Lemma written_stderr_stream_effects evs :
  written Stderr (stream_effects evs) = "".
Proof.
  induction evs as [|e evs IH]; simpl; [done|].
  rewrite written_app, IH, append_nil_r.
  unfold event_effects.
  destruct (String.eqb (type e) "response.output_text.delta"); simpl; [done|].
  by destruct (String.eqb (type e) "response.completed").
Qed.

Lemma count_LF_app s t : count_LF (s +:+ t) = count_LF s + count_LF t.
Proof.
  induction s as [|c s IH]; [done|].
  rewrite append_cons. simpl. rewrite IH. lia.
Qed.

Lemma concat_text_no_completion evs :
  completions evs = 0 → concat_text evs = concat_deltas evs.
Proof.
  induction evs as [|e evs IH]; simpl; [done|].
  intros H. unfold event_text. fold (is_delta e). fold (is_completed e).
  destruct (is_delta e) eqn:Hd.
  - rewrite IH; [done|]. rewrite (delta_not_completed e Hd) in H. lia.
  - destruct (is_completed e); [lia|]. rewrite IH; [done | lia].
Qed.

Lemma count_LF_concat_text evs :
  count_LF (concat_text evs) = completions evs + count_LF (concat_deltas evs).
Proof.
  induction evs as [|e evs IH]; simpl; [done|].
  rewrite !count_LF_app, IH.
  unfold event_text. fold (is_delta e). fold (is_completed e).
  destruct (is_delta e) eqn:Hd.
  - rewrite (delta_not_completed e Hd). lia.
  - destruct (is_completed e); simpl; lia.
Qed.

Lemma concat_text_app evs1 evs2 :
  concat_text (evs1 ++ evs2) = concat_text evs1 +:+ concat_text evs2.
Proof.
  induction evs1 as [|e evs1 IH]; simpl; [done|].
  by rewrite IH, append_assoc.
Qed.

(** C2: the text the stream consumer writes to standard output is the
    in-order concatenation of what each event contributes: the delta of a
    text-delta event, one newline for a completion event, nothing for any
    other kind; nothing goes to the error stream.  For
    [delta "Hi"; delta " there"; completed] the output is "Hi there"
    followed by one newline. *)
Theorem C2_stream_output_is_concatenation
    (evs : list ResponseStreamEvent) (end_ : option Exn)
    (env : gmap string string) (t : list Effect) :
  let r := stream_response_text (mkIterable evs end_) (mkState env t) in
  r.1 = match end_ with Some e => Raise e | None => Ret tt end
  ∧ written Stdout (trace r.2) = written Stdout t +:+ concat_text evs
  ∧ written Stderr (trace r.2) = written Stderr t
  ∧ written Stdout
      (trace (stream_response_text
                (mkIterable [mkEvent "response.output_text.delta" "Hi";
                             mkEvent "response.output_text.delta" " there";
                             mkEvent "response.completed" ""] None)
                (mkState env [])).2)
    = "Hi there" +:+ LF.
Proof.
  simpl. rewrite !stream_response_text_run. simpl.
  rewrite !written_app, written_stream_effects, written_stderr_stream_effects.
  rewrite append_nil_r. done.
Qed.

Lemma consumer_output_eq evs end_ : consumer_output evs end_ = concat_text evs.
Proof.
  unfold consumer_output. rewrite stream_response_text_run. simpl.
  apply written_stream_effects.
Qed.

(** C10 fails as stated: a stream of one text delta that ends in a newline
    contains no completion event, yet the output has a trailing newline and
    one newline was written. *)
Lemma C10_counterexample :
  let evs := [mkEvent "response.output_text.delta" ("x" +:+ LF)] in
  completions evs = 0
  ∧ ends_with_LF (consumer_output evs None) = true
  ∧ count_LF (consumer_output evs None) = 1.
Proof. repeat split; reflexivity. Qed.

(** C10, amended: the consumer adds one newline of its own per completion
    event and passes the deltas through unchanged.  The number of newline
    characters written is the number of completion events plus the number of
    newline characters inside the deltas; with no completion event the
    output is exactly the concatenation of the deltas; and a completion
    event arriving last puts one newline at the end of the output. *)
Theorem C10_newline_per_completion
    (evs : list ResponseStreamEvent) (end_ : option Exn) :
  count_LF (consumer_output evs end_)
  = completions evs + count_LF (concat_deltas evs)
  ∧ (completions evs = 0 → consumer_output evs end_ = concat_deltas evs)
  ∧ (∀ last, is_completed last = true →
       consumer_output (evs ++ [last]) end_ = consumer_output evs end_ +:+ LF).
Proof.
  rewrite !consumer_output_eq. split; [apply count_LF_concat_text|].
  split; [apply concat_text_no_completion|].
  intros last Hl. rewrite consumer_output_eq, concat_text_app. f_equal.
  simpl. unfold event_text. fold (is_delta last). fold (is_completed last).
  rewrite Hl. destruct (is_delta last) eqn:Hd.
  - apply delta_not_completed in Hd. congruence.
  - apply append_nil_r.
Qed.

Lemma C10_newline_per_completion_witness :
  consumer_output [mkEvent "response.output_text.delta" "Hi";
                   mkEvent "response.created" ""] None = "Hi"
  ∧ consumer_output [mkEvent "response.output_text.delta" "Hi";
                     mkEvent "response.completed" ""] None = "Hi" +:+ LF.
Proof.
  split.
  - apply (proj1 (proj2 (C10_newline_per_completion
                           [mkEvent "response.output_text.delta" "Hi";
                            mkEvent "response.created" ""] None))).
    reflexivity.
  - apply (proj2 (proj2 (C10_newline_per_completion
                           [mkEvent "response.output_text.delta" "Hi"] None))
             (mkEvent "response.completed" "")).
    reflexivity.
Defined.

(** ** Trimming *)

Lemma lstrip_all_space s : all_space s = true → lstrip s = "".
Proof.
  induction s as [|c s IH]; simpl; [done|].
  intros [Hc Hs]%andb_true_iff. rewrite Hc. auto.
Qed.

Lemma rstrip_all_space s : all_space s = true → rstrip s = "".
Proof.
  induction s as [|c s IH]; simpl; [done|].
  intros [Hc Hs]%andb_true_iff. by rewrite (IH Hs), Hc.
Qed.

Lemma rstrip_empty_all_space s : rstrip s = "" → all_space s = true.
Proof.
  induction s as [|c s IH]; simpl; [done|].
  destruct (rstrip s) eqn:E; [|done].
  destruct (isspace c); [|done]. intros _. by rewrite IH.
Qed.

Lemma lstrip_head c r s : lstrip s = String c r → isspace c = false.
Proof.
  induction s as [|c' s IH]; simpl; [done|].
  destruct (isspace c') eqn:E; [done|]. intros [= <- _]. done.
Qed.

Lemma lstrip_empty_all_space s : lstrip s = "" → all_space s = true.
Proof.
  induction s as [|c s IH]; simpl; [done|].
  destruct (isspace c); [|done]. auto.
Qed.

Lemma strip_empty_iff s : strip s = "" ↔ all_space s = true.
Proof.
  unfold strip. split.
  - intros H. apply lstrip_empty_all_space.
    destruct (lstrip s) as [|c r] eqn:E; [done|].
    apply rstrip_empty_all_space in H. simpl in H.
    apply lstrip_head in E. by rewrite E in H.
  - intros H. by rewrite (lstrip_all_space s H).
Qed.

Lemma lstrip_app_space ws s : all_space ws = true → lstrip (ws +:+ s) = lstrip s.
Proof.
  induction ws as [|c ws IH]; [done|]. simpl.
  intros [Hc Hs]%andb_true_iff. rewrite ?append_cons. simpl. rewrite Hc. auto.
Qed.

Lemma rstrip_app_space s ws : all_space ws = true → rstrip (s +:+ ws) = rstrip s.
Proof.
  intros H. induction s as [|c s IH].
  - rewrite append_nil_l. by apply rstrip_all_space.
  - rewrite append_cons. simpl. by rewrite IH.
Qed.

Lemma lstrip_length s : String.length (lstrip s) ≤ String.length s.
Proof.
  induction s as [|c s IH]; simpl; [done|].
  destruct (isspace c); simpl; lia.
Qed.

Lemma rstrip_length s : String.length (rstrip s) ≤ String.length s.
Proof.
  induction s as [|c s IH]; simpl; [done|].
  destruct (rstrip s); [destruct (isspace c)|]; simpl in *; lia.
Qed.

(** A string that is its own trimming begins with no whitespace. *)
Lemma strip_fixed_lstrip X : strip X = X → lstrip X = X.
Proof.
  destruct X as [|c r]; [done|]. intros H. simpl.
  destruct (isspace c) eqn:E; [|done].
  exfalso. unfold strip in H. simpl in H. rewrite E in H.
  pose proof (rstrip_length (lstrip r)). pose proof (lstrip_length r).
  rewrite H in *. simpl in *. lia.
Qed.

(** Trimming removes the whitespace around an already trimmed string. *)
Lemma strip_surrounded ws1 X ws2 :
  all_space ws1 = true → all_space ws2 = true → strip X = X →
  strip (ws1 +:+ X +:+ ws2) = X.
Proof.
  intros H1 H2 HX. pose proof (strip_fixed_lstrip X HX) as HL.
  unfold strip in *. rewrite lstrip_app_space by done.
  destruct X as [|c r].
  - rewrite append_nil_l, (lstrip_all_space ws2 H2). done.
  - assert (isspace c = false) as Hc by (by eapply lstrip_head).
    rewrite append_cons. simpl lstrip. rewrite Hc.
    rewrite <- append_cons, rstrip_app_space by done.
    by rewrite HL in HX.
Qed.

(** ** The prompt files *)

Lemma load_instructions_absent w :
  files w !! INSTRUCTIONS_FILE = None → load_instructions w = VNone.
Proof. unfold load_instructions. by intros ->. Qed.

Lemma load_instructions_text w text :
  files w !! INSTRUCTIONS_FILE = Some text →
  load_instructions w = if String.eqb (strip text) "" then VNone else VStr (strip text).
Proof.
  unfold load_instructions. intros ->. unfold or_. simpl.
  by destruct (String.eqb (strip text) "").
Qed.

Lemma load_system_prompt_absent w :
  files w !! SYSTEM_PROMPT_FILE = None → load_system_prompt w = VNone.
Proof. unfold load_system_prompt. by intros ->. Qed.

Lemma load_system_prompt_text w text :
  files w !! SYSTEM_PROMPT_FILE = Some text →
  load_system_prompt w = if String.eqb (strip text) "" then VNone else VStr (strip text).
Proof.
  unfold load_system_prompt. intros ->. unfold or_. simpl.
  by destruct (String.eqb (strip text) "").
Qed.

(** ** The assembled request *)

Lemma request_store w : the_request w !! "store" = Some (VBool false).
Proof.
  unfold the_request, stream_kwargs_of.
  destruct (truthy (load_instructions w)); by simplify_map_eq.
Qed.

Lemma request_input w :
  the_request w !! "input" = Some (input_messages (load_system_prompt w)).
Proof.
  unfold the_request, stream_kwargs_of.
  destruct (truthy (load_instructions w)); by simplify_map_eq.
Qed.

Lemma request_instructions w :
  the_request w !! "instructions"
  = if truthy (load_instructions w) then Some (load_instructions w) else None.
Proof.
  unfold the_request, stream_kwargs_of.
  destruct (truthy (load_instructions w)); by simplify_map_eq.
Qed.

Lemma resolved_key_truthy w k :
  loaded_environ w !! "OPENAI_API_KEY" = Some k → k ≠ "" →
  truthy (resolved_key w) = true.
Proof.
  intros Hk Hne. unfold resolved_key, getenv_in. rewrite Hk. simpl.
  apply negb_true_iff, String.eqb_neq. done.
Qed.

Lemma requests_client_effects env key : requests (client_effects env key) = [].
Proof. unfold client_effects. by destruct (eq_str _ _). Qed.

Lemma requests_stream_effects evs : requests (stream_effects evs) = [].
Proof.
  induction evs as [|e evs IH]; simpl; [done|].
  rewrite requests_app, IH, app_nil_r. unfold event_effects.
  by repeat case_match.
Qed.

Lemma requests_stream_trace s : requests (stream_trace s) = [].
Proof.
  unfold stream_trace. rewrite requests_app, requests_stream_effects.
  by destruct (raises _).
Qed.

Lemma requests_prefix_trace w :
  requests (prefix_trace w) = [(the_client w, the_request w)].
Proof.
  unfold prefix_trace. by rewrite requests_app, requests_client_effects.
Qed.

(** With a key that passes the program's check, a run issues exactly the
    request [the_request], through the client [the_client]. *)
Lemma run_requests w :
  truthy (resolved_key w) = true →
  requests (trace (run w).2) = [(the_client w, the_request w)].
Proof.
  intros Hk. destruct (api w (the_client w) (the_request w)) as [e|s] eqn:Hapi.
  - rewrite (run_enter_fails w e Hk Hapi). simpl. apply requests_prefix_trace.
  - rewrite (run_entered w s Hk Hapi). simpl.
    by rewrite requests_app, requests_prefix_trace, requests_stream_trace.
Qed.

(** C1: in every run whose API key is present (set, after the optional
    [.env] loading, to a non-empty value: the program's own check for a
    key that is not missing), exactly one request is issued; its input is
    the two messages [system, user] in this order, the user message carries
    the fixed prompt text verbatim, and its [store] field is included and
    is [False]. *)
Theorem C1_one_request_two_messages (w : World) (k : string) :
  loaded_environ w !! "OPENAI_API_KEY" = Some k → k ≠ "" →
  ∃ client request sys_content,
    requests (trace (run w).2) = [(client, request)]
    ∧ request !! "input"
      = Some (VList [
          VDict [("role", VStr "system"); ("content", sys_content)];
          VDict [("role", VStr "user");
                 ("content", VList [VDict [("type", VStr "input_text");
                                            ("text", VStr PROMPT_TEXT)]])]])
    ∧ request !! "store" = Some (VBool false).
Proof.
  intros Hk Hne. exists (the_client w), (the_request w), (load_system_prompt w).
  split; [apply run_requests; by eapply resolved_key_truthy|].
  split; [apply request_input | apply request_store].
Qed.

(** ** Missing key *)

(** C3: when the API key is unset after the optional [.env] loading, the
    run consists of one write of the diagnostic to the error stream and
    ends by [sys.exit(1)]: exit status 1, no client built, no request
    issued, nothing on standard output. *)
Theorem C3_missing_key_exits_1 (w : World) :
  loaded_environ w !! "OPENAI_API_KEY" = None →
  (run w).1 = Raise (SystemExit 1)
  ∧ exit_status (run w).1 = 1%Z
  ∧ trace (run w).2
    = [Write Stderr ("Missing OPENAI_API_KEY environment variable." +:+ LF)]
  ∧ clients (trace (run w).2) = []
  ∧ requests (trace (run w).2) = [].
Proof.
  intros Hk. rewrite run_missing_key; [done|].
  unfold resolved_key, getenv_in. by rewrite Hk.
Qed.

(** A key set to the empty string fails the same check. *)
Lemma run_empty_key w :
  loaded_environ w !! "OPENAI_API_KEY" = Some "" →
  (run w).1 = Raise (SystemExit 1) ∧ requests (trace (run w).2) = [].
Proof.
  intros Hk. rewrite run_missing_key; [done|].
  unfold resolved_key, getenv_in. by rewrite Hk.
Qed.

(** ** The instructions and the system prompt in the request *)

(** C5: in a run that issues its request, the request has no
    [instructions] field when the instructions file is absent or holds only
    whitespace, and when the file holds a trimmed non-empty text [X] with
    whitespace around it, the field is exactly [X]. *)
Theorem C5_instructions_field (w : World) (k : string) :
  loaded_environ w !! "OPENAI_API_KEY" = Some k → k ≠ "" →
  ∃ client request,
    requests (trace (run w).2) = [(client, request)]
    ∧ (files w !! INSTRUCTIONS_FILE = None → request !! "instructions" = None)
    ∧ (∀ text, files w !! INSTRUCTIONS_FILE = Some text →
         all_space text = true → request !! "instructions" = None)
    ∧ (∀ ws1 X ws2,
         files w !! INSTRUCTIONS_FILE = Some (ws1 +:+ X +:+ ws2) →
         all_space ws1 = true → all_space ws2 = true →
         X ≠ "" → strip X = X →
         request !! "instructions" = Some (VStr X)).
Proof.
  intros Hk Hne. exists (the_client w), (the_request w).
  split; [apply run_requests; by eapply resolved_key_truthy|].
  rewrite request_instructions. repeat split.
  - intros H. by rewrite (load_instructions_absent w H).
  - intros text H Hs. rewrite (load_instructions_text w text H).
    apply strip_empty_iff in Hs. by rewrite Hs.
  - intros ws1 X ws2 H H1 H2 HX Hfix.
    rewrite (load_instructions_text w _ H), (strip_surrounded ws1 X ws2) by done.
    apply String.eqb_neq in HX. rewrite HX. simpl. by rewrite HX.
Qed.

(** C9: the request always has the two messages, the first of role
    [system]; when the system-prompt file is absent or holds only
    whitespace, the system message is still there and its content is
    [None]. *)
Theorem C9_system_message_always_present (w : World) (k : string) :
  loaded_environ w !! "OPENAI_API_KEY" = Some k → k ≠ "" →
  ∃ client request content user_message,
    requests (trace (run w).2) = [(client, request)]
    ∧ request !! "input"
      = Some (VList [VDict [("role", VStr "system"); ("content", content)];
                     user_message])
    ∧ (files w !! SYSTEM_PROMPT_FILE = None → content = VNone)
    ∧ (∀ text, files w !! SYSTEM_PROMPT_FILE = Some text →
         all_space text = true → content = VNone).
Proof.
  intros Hk Hne.
  exists (the_client w), (the_request w), (load_system_prompt w).
  eexists. split; [apply run_requests; by eapply resolved_key_truthy|].
  split; [apply request_input|]. split.
  - apply load_system_prompt_absent.
  - intros text H Hs. rewrite (load_system_prompt_text w text H).
    apply strip_empty_iff in Hs. by rewrite Hs.
Qed.

(** ** Release of the stream *)

Lemma closes_client_effects env key : closes (client_effects env key) = 0.
Proof. unfold client_effects. by destruct (eq_str _ _). Qed.

Lemma closes_stream_effects evs : closes (stream_effects evs) = 0.
Proof.
  induction evs as [|e evs IH]; simpl; [done|].
  rewrite closes_app, IH. unfold event_effects. by repeat case_match.
Qed.

Lemma closes_prefix_trace w : closes (prefix_trace w) = 0.
Proof.
  unfold prefix_trace. by rewrite closes_app, closes_client_effects.
Qed.

Lemma closes_stream_trace s : closes (stream_trace s) = 1.
Proof.
  unfold stream_trace. rewrite closes_app, closes_stream_effects.
  by destruct (raises _).
Qed.

Lemma last_stream_trace t s : last (t ++ stream_trace s) = Some StreamClose.
Proof.
  unfold stream_trace. destruct (raises _).
  - by rewrite !app_assoc, last_snoc.
  - change [GetFinalResponse; StreamClose] with ([GetFinalResponse] ++ [StreamClose]).
    by rewrite !app_assoc, last_snoc.
Qed.

Lemma final_response_not_in_stream_effects evs :
  GetFinalResponse ∉ stream_effects evs.
Proof.
  induction evs as [|e evs IH]; simpl; [apply not_elem_of_nil|].
  rewrite elem_of_app. intros [H|H]; [|done].
  unfold event_effects in H. repeat case_match; absent_in H.
Qed.

(** C6: once the stream is entered, it is closed exactly once and as the
    last action of the run, on every path out of the block; when the event
    stream raises an error mid-sequence, the error propagates out of [main]
    uncaught, the process exits with a non-zero status, and the final
    response is not asked for. *)
Theorem C6_stream_error_propagates_and_closes
    (w : World) (k : string) (s : ResponseStream) :
  loaded_environ w !! "OPENAI_API_KEY" = Some k → k ≠ "" →
  (∀ client request, api w client request = inr s) →
  closes (trace (run w).2) = 1
  ∧ last (trace (run w).2) = Some StreamClose
  ∧ (∀ name, raises (stream_events s) = Some (Exception name) →
       (run w).1 = Raise (Exception name)
       ∧ exit_status (run w).1 ≠ 0%Z
       ∧ GetFinalResponse ∉ trace (run w).2).
Proof.
  intros Hk Hne Hapi.
  rewrite (run_entered w s (resolved_key_truthy w k Hk Hne) (Hapi _ _)). simpl.
  split; [by rewrite closes_app, closes_prefix_trace, closes_stream_trace|].
  split; [apply last_stream_trace|].
  intros name Hr. unfold stream_outcome, stream_trace. rewrite Hr. simpl.
  split; [done|]. split; [done|].
  unfold prefix_trace, client_effects. rewrite !elem_of_app.
  intros [[[H|H]|H]|[H|H]].
  - destruct (eq_str _ _); absent_in H.
  - absent_in H.
  - absent_in H.
  - by apply final_response_not_in_stream_effects in H.
  - absent_in H.
Qed.

(** ** The [.env] file *)

Lemma set_one_keeps env kv k v :
  env !! k = Some v → Dotenv.set_one false env kv !! k = Some v.
Proof.
  intros Hk. unfold Dotenv.set_one. rewrite andb_true_r.
  case_bool_decide as Hin; [done|].
  destruct (kv.2); [|done].
  rewrite lookup_insert_ne; [done|].
  intros Heq. apply Hin. by rewrite Heq, Hk.
Qed.

Lemma set_all_keeps l env k v :
  env !! k = Some v → foldl (Dotenv.set_one false) env l !! k = Some v.
Proof.
  revert env. induction l as [|kv l IH]; intros env Hk; simpl; [done|].
  by apply IH, set_one_keeps.
Qed.

Lemma set_one_other env kv k :
  kv.1 ≠ k → Dotenv.set_one false env kv !! k = env !! k.
Proof.
  intros Hne. unfold Dotenv.set_one.
  destruct (_ && _); [done|]. destruct (kv.2); [|done].
  by rewrite lookup_insert_ne.
Qed.

Lemma set_all_supplies l env k v :
  NoDup l.*1 → (k, Some v) ∈ l → env !! k = None →
  foldl (Dotenv.set_one false) env l !! k = Some v.
Proof.
  revert env. induction l as [|[k' v'] l IH]; intros env Hnd Hin Hk.
  - by apply elem_of_nil in Hin.
  - apply NoDup_cons in Hnd as [Hk' Hnd]. simpl.
    apply elem_of_cons in Hin as [[= <- <-]|Hin].
    + apply set_all_keeps. unfold Dotenv.set_one. simpl.
      rewrite Hk. rewrite bool_decide_eq_false_2 by (by intros [? ?]).
      simpl. apply lookup_insert_eq.
    + apply IH; [done..|].
      rewrite set_one_other; [done|]. simpl. intros Heq. subst k'.
      apply Hk'. apply list_elem_of_fmap. by exists (k, Some v).
Qed.

Lemma load_values_keeps fs path env k v :
  env !! k = Some v → Dotenv.load_values fs path false env !! k = Some v.
Proof.
  intros Hk. unfold Dotenv.load_values, Dotenv.set_as_environment_variables.
  destruct (fs !! path); [|done]. by apply set_all_keeps.
Qed.

(** A variable that the environment does not set is supplied by the file. *)
Lemma load_values_supplies fs path bs env k v :
  fs !! path = Some bs → Dotenv.to_dict bs !! k = Some (Some v) →
  env !! k = None →
  Dotenv.load_values fs path false env !! k = Some v.
Proof.
  intros Hf Hd Hk. unfold Dotenv.load_values, Dotenv.set_as_environment_variables.
  rewrite Hf. apply set_all_supplies; [|by apply elem_of_map_to_list|done].
  apply NoDup_fst_map_to_list.
Qed.

Lemma run_environ w : os_environ (run w).2 = loaded_environ w.
Proof.
  destruct (truthy (resolved_key w)) eqn:Hk.
  - destruct (api w (the_client w) (the_request w)) as [e|s] eqn:Hapi.
    + by rewrite (run_enter_fails w e Hk Hapi).
    + by rewrite (run_entered w s Hk Hapi).
  - by rewrite (run_missing_key w Hk).
Qed.

(** C7: loading the [.env] file never overrides a variable that the process
    environment already sets: the environment the program reads its
    configuration from, and ends the run with, gives every such variable
    its pre-existing value, whatever the file binds. *)
Theorem C7_environment_wins (w : World) (k v : string) :
  environ w !! k = Some v →
  loaded_environ w !! k = Some v
  ∧ getenv_in (loaded_environ w) k = VStr v
  ∧ os_environ (run w).2 !! k = Some v.
Proof.
  intros Hk. assert (loaded_environ w !! k = Some v) as H
    by (by apply load_values_keeps).
  rewrite run_environ. unfold getenv_in. by rewrite H.
Qed.

(** ** The client *)

Lemma eq_str_getenv env key s :
  eq_str (getenv_in env key) s = true ↔ env !! key = Some s.
Proof.
  unfold getenv_in, eq_str. destruct (env !! key) as [v|]; [|done].
  rewrite String.eqb_eq. split; congruence.
Qed.

Lemma client_http_client env api_key :
  client_kwargs_of env api_key !! "http_client"
  = if eq_str (getenv_in env "OPENAI_ALLOW_INSECURE_SSL") "1"
    then Some (VHttpxClient false) else None.
Proof.
  unfold client_kwargs_of.
  destruct (eq_str _ _), (truthy _); by simplify_map_eq.
Qed.

Lemma client_base_url env api_key :
  client_kwargs_of env api_key !! "base_url"
  = if truthy (getenv_in env "OPENAI_BASE_URL")
    then Some (getenv_in env "OPENAI_BASE_URL") else None.
Proof.
  unfold client_kwargs_of.
  destruct (eq_str _ _), (truthy _); by simplify_map_eq.
Qed.

Lemma client_kwargs_unset_flag env api_key :
  env !! "OPENAI_ALLOW_INSECURE_SSL" ≠ Some "1" →
  client_kwargs_of (delete "OPENAI_ALLOW_INSECURE_SSL" env) api_key
  = client_kwargs_of env api_key.
Proof.
  intros Hne. unfold client_kwargs_of.
  destruct (eq_str (getenv_in env _) "1") eqn:E.
  { by apply eq_str_getenv in E. }
  unfold getenv_in. rewrite lookup_delete_eq, lookup_delete_ne by done. done.
Qed.

(** C4: the client's transport skips TLS certificate verification exactly
    when [OPENAI_ALLOW_INSECURE_SSL] is the string "1"; for any other value,
    and when the variable is unset, the client verifies and is the very
    client built with the variable unset. *)
Theorem C4_tls_bypass_iff_flag_is_1
    (env : gmap string string) (api_key : Value) (t : list Effect) :
  ∃ client st',
    build_openai_client api_key (mkState env t) = (Ret client, st')
    ∧ (tls_verify client = false ↔ env !! "OPENAI_ALLOW_INSECURE_SSL" = Some "1")
    ∧ (env !! "OPENAI_ALLOW_INSECURE_SSL" ≠ Some "1" →
         tls_verify client = true
         ∧ client !! "http_client" = None
         ∧ (build_openai_client api_key
              (mkState (delete "OPENAI_ALLOW_INSECURE_SSL" env) t)).1
           = Ret client).
Proof.
  eexists _, _. split; [apply build_openai_client_run|].
  unfold tls_verify. rewrite client_http_client.
  destruct (eq_str _ "1") eqn:E.
  - apply eq_str_getenv in E. split; [done|]. by intros [].
  - assert (env !! "OPENAI_ALLOW_INSECURE_SSL" ≠ Some "1") as Hne.
    { intros H. apply eq_str_getenv in H. congruence. }
    split; [split; [done | by intros ?]|].
    intros _. split; [done|]. split; [done|].
    rewrite build_openai_client_run. simpl.
    by rewrite client_kwargs_unset_flag.
Qed.

(** The values the specification names, and the unset case. *)
Lemma C4_tls_bypass_iff_flag_is_1_witness :
  ∃ client st',
    build_openai_client (VStr "sk-test")
      (mkState {[ "OPENAI_ALLOW_INSECURE_SSL" := "true" ]} [])
    = (Ret client, st')
    ∧ tls_verify client = true
    ∧ client !! "http_client" = None.
Proof.
  destruct (C4_tls_bypass_iff_flag_is_1
              {[ "OPENAI_ALLOW_INSECURE_SSL" := "true" ]} (VStr "sk-test") [])
    as (client & st' & Hrun & _ & Hother).
  exists client, st'. split; [exact Hrun|].
  destruct Hother as (Hv & Hc & _); [|by split].
  vm_compute. discriminate.
Defined.

Example tls_verify_flag_values :
  tls_verify_with (Some "1") = false
  ∧ tls_verify_with (Some "true") = true
  ∧ tls_verify_with (Some "0") = true
  ∧ tls_verify_with (Some "") = true
  ∧ tls_verify_with None = true.
Proof. repeat split; vm_compute; reflexivity. Qed.

(** C8 fails as stated: with [OPENAI_BASE_URL] set to the empty string the
    client is built with no [base_url] at all, not with the empty string. *)
Lemma C8_counterexample :
  ∃ client st',
    build_openai_client (VStr "sk-test")
      (mkState {[ "OPENAI_BASE_URL" := "" ]} [])
    = (Ret client, st')
    ∧ client !! "base_url" = None
    ∧ client !! "base_url" ≠ Some (VStr "").
Proof.
  eexists _, _. split; [apply build_openai_client_run|].
  rewrite client_base_url. vm_compute. split; [reflexivity | discriminate].
Qed.

(** The endpoint the constructor ends up taking, for the client that
    [build_openai_client] builds. *)
Lemma client_endpoint_choice env api_key :
  endpoint_choice env (client_kwargs_of env api_key)
  = match env !! "OPENAI_BASE_URL" with
    | Some url => if String.eqb url "" then FromEnvironment "" else FromArgument (VStr url)
    | None => VendorDefault
    end.
Proof.
  unfold endpoint_choice. rewrite client_base_url. unfold getenv_in.
  destruct (env !! "OPENAI_BASE_URL") as [url|]; simpl; [|done].
  destruct (String.eqb url "") eqn:E; simpl; [|done].
  apply String.eqb_eq in E. by subst url.
Qed.

(** C8, amended: every non-empty value of [OPENAI_BASE_URL] is forwarded
    verbatim to the client construction as [base_url]; the empty string is
    not forwarded, no [base_url] being passed; and when the variable is not
    provided, no [base_url] is passed and the vendor's default endpoint is
    used. *)
Theorem C8_base_url_forwarded_when_nonempty
    (env : gmap string string) (api_key : Value) (t : list Effect) :
  ∃ client st',
    build_openai_client api_key (mkState env t) = (Ret client, st')
    ∧ clients (trace st') = clients t ++ [client]
    ∧ (∀ url, env !! "OPENAI_BASE_URL" = Some url → url ≠ "" →
         client !! "base_url" = Some (VStr url))
    ∧ (env !! "OPENAI_BASE_URL" = None ∨ env !! "OPENAI_BASE_URL" = Some "" →
         client !! "base_url" = None)
    ∧ (env !! "OPENAI_BASE_URL" = None →
         endpoint_choice (os_environ st') client = VendorDefault).
Proof.
  eexists _, _. split; [apply build_openai_client_run|]. simpl.
  split.
  { rewrite clients_app. f_equal. unfold client_effects.
    by destruct (eq_str _ _). }
  rewrite client_endpoint_choice, client_base_url. unfold getenv_in.
  split; [|split].
  - intros url -> Hne. simpl. apply String.eqb_neq in Hne. by rewrite Hne.
  - by intros [-> | ->].
  - by intros ->.
Qed.

Lemma C8_base_url_forwarded_when_nonempty_witness :
  (∃ client st',
     build_openai_client (VStr "sk-test")
       (mkState {[ "OPENAI_BASE_URL" := "http://localhost:8080/v1" ]} [])
     = (Ret client, st')
     ∧ client !! "base_url" = Some (VStr "http://localhost:8080/v1"))
  ∧ (∃ client st',
       build_openai_client (VStr "sk-test") (mkState ∅ [])
       = (Ret client, st')
       ∧ client !! "base_url" = None
       ∧ endpoint_choice (os_environ st') client = VendorDefault).
Proof.
  split.
  - destruct (C8_base_url_forwarded_when_nonempty
                {[ "OPENAI_BASE_URL" := "http://localhost:8080/v1" ]}
                (VStr "sk-test") [])
      as (client & st' & Hrun & _ & Hurl & _).
    exists client, st'. split; [exact Hrun|].
    apply Hurl; [vm_compute; reflexivity | discriminate].
  - destruct (C8_base_url_forwarded_when_nonempty ∅ (VStr "sk-test") [])
      as (client & st' & Hrun & _ & _ & Hnone & Hdefault).
    exists client, st'. split; [exact Hrun|]. split.
    + apply Hnone. left. reflexivity.
    + apply Hdefault. reflexivity.
Defined.

(** ** The theorems at the sample worlds *)

Lemma C1_one_request_two_messages_witness :
  ∃ client request sys_content,
    requests (trace (run demo_world).2) = [(client, request)]
    ∧ request !! "input"
      = Some (VList [
          VDict [("role", VStr "system"); ("content", sys_content)];
          VDict [("role", VStr "user");
                 ("content", VList [VDict [("type", VStr "input_text");
                                            ("text", VStr PROMPT_TEXT)]])]])
    ∧ request !! "store" = Some (VBool false).
Proof.
  apply (C1_one_request_two_messages demo_world "sk-env").
  - vm_compute. reflexivity.
  - discriminate.
Defined.

Lemma C3_missing_key_exits_1_witness :
  (run keyless_world).1 = Raise (SystemExit 1)
  ∧ exit_status (run keyless_world).1 = 1%Z
  ∧ trace (run keyless_world).2
    = [Write Stderr ("Missing OPENAI_API_KEY environment variable." +:+ LF)]
  ∧ clients (trace (run keyless_world).2) = []
  ∧ requests (trace (run keyless_world).2) = [].
Proof.
  apply (C3_missing_key_exits_1 keyless_world).
  vm_compute. reflexivity.
Defined.

Lemma C5_instructions_field_witness :
  ∃ client request,
    requests (trace (run demo_world).2) = [(client, request)]
    ∧ request !! "instructions" = Some (VStr "X").
Proof.
  destruct (C5_instructions_field demo_world "sk-env")
    as (client & request & Hreq & _ & _ & Htext).
  - vm_compute. reflexivity.
  - discriminate.
  - exists client, request. split; [exact Hreq|].
    apply (Htext "  " "X" LF).
    + vm_compute. reflexivity.
    + reflexivity.
    + reflexivity.
    + discriminate.
    + reflexivity.
Defined.

Lemma C6_stream_error_propagates_and_closes_witness :
  closes (trace (run failing_world).2) = 1
  ∧ last (trace (run failing_world).2) = Some StreamClose
  ∧ (run failing_world).1 = Raise (Exception "httpx.ReadError")
  ∧ exit_status (run failing_world).1 ≠ 0%Z.
Proof.
  destruct (C6_stream_error_propagates_and_closes failing_world "sk-env"
              (mkStream (mkIterable [delta_event "Hi"]
                                    (Some (Exception "httpx.ReadError")))
                        None))
    as (Hclose & Hlast & Herr).
  - vm_compute. reflexivity.
  - discriminate.
  - intros client request. reflexivity.
  - destruct (Herr "httpx.ReadError") as (Hres & Hexit & _); [reflexivity|].
    repeat split; assumption.
Defined.

Lemma C7_environment_wins_witness :
  loaded_environ demo_world !! "OPENAI_API_KEY" = Some "sk-env"
  ∧ getenv_in (loaded_environ demo_world) "OPENAI_API_KEY" = VStr "sk-env"
  ∧ os_environ (run demo_world).2 !! "OPENAI_API_KEY" = Some "sk-env".
Proof.
  apply (C7_environment_wins demo_world "OPENAI_API_KEY" "sk-env").
  vm_compute. reflexivity.
Defined.

Lemma C9_system_message_always_present_witness :
  ∃ client request user_message,
    requests (trace (run demo_world).2) = [(client, request)]
    ∧ request !! "input"
      = Some (VList [VDict [("role", VStr "system"); ("content", VNone)];
                     user_message]).
Proof.
  destruct (C9_system_message_always_present demo_world "sk-env")
    as (client & request & content & user_message & Hreq & Hin & _ & Hws).
  - vm_compute. reflexivity.
  - discriminate.
  - exists client, request, user_message. split; [exact Hreq|].
    rewrite Hin. rewrite (Hws (" " +:+ LF)); [reflexivity | |reflexivity].
    vm_compute. reflexivity.
Defined.

(** The whole sample run: the model comes from [.env], the key from the
    environment, and the streamed text reaches standard output. *)
Example demo_run :
  (run demo_world).1 = Ret tt
  ∧ exit_status (run demo_world).1 = 0%Z
  ∧ written Stdout (trace (run demo_world).2) = "Hi there" +:+ LF
  ∧ the_client demo_world !! "api_key" = Some (VStr "sk-env")
  ∧ the_request demo_world !! "model" = Some (VStr "gpt-5-codex")
  ∧ last (trace (run demo_world).2) = Some StreamClose.
Proof. repeat split; vm_compute; reflexivity. Qed.

Example failing_run :
  written Stdout (trace (run failing_world).2) = "Hi"
  ∧ exit_status (run failing_world).1 = 1%Z.
Proof. split; vm_compute; reflexivity. Qed.

(** * Further properties of the program *)

Set Warnings "-clear-no-such-hyp".

(** ** What the configuration puts in the client and the request *)

Lemma request_model w :
  the_request w !! "model"
  = Some (match loaded_environ w !! "OPENAI_MODEL" with
          | Some v => VStr v
          | None => VStr "gpt-5"
          end).
Proof.
  unfold the_request, stream_kwargs_of.
  destruct (truthy (load_instructions w)); by simplify_map_eq.
Qed.

Lemma client_api_key env api_key :
  client_kwargs_of env api_key !! "api_key" = Some api_key.
Proof.
  unfold client_kwargs_of.
  destruct (eq_str _ _), (truthy _); by simplify_map_eq.
Qed.

Lemma clients_client_effects env key :
  clients (client_effects env key) = [client_kwargs_of env key].
Proof. unfold client_effects. by destruct (eq_str _ _). Qed.

Lemma clients_stream_effects evs : clients (stream_effects evs) = [].
Proof.
  induction evs as [|e evs IH]; simpl; [done|].
  rewrite clients_app, IH, app_nil_r. unfold event_effects.
  by repeat case_match.
Qed.

Lemma clients_stream_trace s : clients (stream_trace s) = [].
Proof.
  unfold stream_trace. rewrite clients_app, clients_stream_effects.
  by destruct (raises _).
Qed.

Lemma run_clients w :
  truthy (resolved_key w) = true → clients (trace (run w).2) = [the_client w].
Proof.
  intros Hk.
  assert (clients (prefix_trace w) = [the_client w]) as Hp.
  { unfold prefix_trace. by rewrite clients_app, clients_client_effects. }
  destruct (api w (the_client w) (the_request w)) as [e|s] eqn:Hapi.
  - by rewrite (run_enter_fails w e Hk Hapi).
  - rewrite (run_entered w s Hk Hapi). simpl.
    by rewrite clients_app, Hp, clients_stream_trace.
Qed.

(** X1: the request's [model] is the value of [OPENAI_MODEL] verbatim
    whenever the variable is set, the empty string included (no default is
    applied to a set variable), and "gpt-5" when it is unset. *)
Theorem model_forwarded_or_default (w : World) (k : string) :
  loaded_environ w !! "OPENAI_API_KEY" = Some k → k ≠ "" →
  ∃ client request,
    requests (trace (run w).2) = [(client, request)]
    ∧ (∀ m, loaded_environ w !! "OPENAI_MODEL" = Some m →
         request !! "model" = Some (VStr m))
    ∧ (loaded_environ w !! "OPENAI_MODEL" = None →
         request !! "model" = Some (VStr "gpt-5")).
Proof.
  intros Hk Hne. exists (the_client w), (the_request w).
  split; [apply run_requests; by eapply resolved_key_truthy|].
  rewrite request_model. split; [by intros m ->|by intros ->].
Qed.

Lemma model_forwarded_or_default_witness :
  ∃ client request,
    requests (trace (run empty_model_world).2) = [(client, request)]
    ∧ request !! "model" = Some (VStr "").
Proof.
  destruct (model_forwarded_or_default empty_model_world "sk-env")
    as (client & request & Hreq & Hset & _).
  - vm_compute. reflexivity.
  - discriminate.
  - exists client, request. split; [exact Hreq|].
    apply Hset. vm_compute. reflexivity.
Defined.

(** X2: exactly one client is constructed in a run that has a key; it is
    given the resolved key verbatim as [api_key], and it is the client the
    request is issued through. *)
Theorem one_client_with_the_key (w : World) (k : string) :
  loaded_environ w !! "OPENAI_API_KEY" = Some k → k ≠ "" →
  ∃ client request,
    clients (trace (run w).2) = [client]
    ∧ requests (trace (run w).2) = [(client, request)]
    ∧ client !! "api_key" = Some (VStr k).
Proof.
  intros Hk Hne. pose proof (resolved_key_truthy w k Hk Hne) as Ht.
  exists (the_client w), (the_request w).
  split; [by apply run_clients|]. split; [by apply run_requests|].
  unfold the_client. rewrite client_api_key.
  unfold resolved_key, getenv_in. by rewrite Hk.
Qed.

Lemma one_client_with_the_key_witness :
  ∃ client request,
    clients (trace (run demo_world).2) = [client]
    ∧ requests (trace (run demo_world).2) = [(client, request)]
    ∧ client !! "api_key" = Some (VStr "sk-env").
Proof.
  apply (one_client_with_the_key demo_world "sk-env").
  - vm_compute. reflexivity.
  - discriminate.
Defined.

(** X3: a key that is set to the empty string is treated as missing: the
    run is the one write of the diagnostic to the error stream followed by
    [sys.exit(1)], with no client and no request. *)
Theorem empty_key_is_missing (w : World) :
  loaded_environ w !! "OPENAI_API_KEY" = Some "" →
  (run w).1 = Raise (SystemExit 1)
  ∧ exit_status (run w).1 = 1%Z
  ∧ trace (run w).2
    = [Write Stderr ("Missing OPENAI_API_KEY environment variable." +:+ LF)].
Proof.
  intros Hk. rewrite run_missing_key; [done|].
  unfold resolved_key, getenv_in. by rewrite Hk.
Qed.

Lemma empty_key_is_missing_witness :
  (run empty_key_world).1 = Raise (SystemExit 1)
  ∧ exit_status (run empty_key_world).1 = 1%Z
  ∧ trace (run empty_key_world).2
    = [Write Stderr ("Missing OPENAI_API_KEY environment variable." +:+ LF)].
Proof.
  apply (empty_key_is_missing empty_key_world). vm_compute. reflexivity.
Defined.

Lemma request_dom w :
  dom (the_request w)
  = if truthy (load_instructions w)
    then {[ "model"; "input"; "store"; "instructions" ]}
    else ({[ "model"; "input"; "store" ]} : gset string).
Proof.
  unfold the_request, stream_kwargs_of.
  destruct (truthy (load_instructions w));
    rewrite !dom_insert_L, dom_singleton_L; set_solver.
Qed.

(** X4: the request carries the fields [model], [input] and [store], the
    field [instructions] when the instructions file gives some, and never
    any other field; in particular the API key is not part of it. *)
Theorem request_fields (w : World) (k : string) :
  loaded_environ w !! "OPENAI_API_KEY" = Some k → k ≠ "" →
  ∃ client request,
    requests (trace (run w).2) = [(client, request)]
    ∧ ({[ "model"; "input"; "store" ]} : gset string) ⊆ dom request
    ∧ dom request ⊆ {[ "model"; "input"; "store"; "instructions" ]}
    ∧ request !! "api_key" = None.
Proof.
  intros Hk Hne. exists (the_client w), (the_request w).
  split; [apply run_requests; by eapply resolved_key_truthy|].
  rewrite <- (not_elem_of_dom (the_request w)), request_dom.
  destruct (truthy (load_instructions w)); set_solver.
Qed.

Lemma request_fields_witness :
  ∃ client request,
    requests (trace (run demo_world).2) = [(client, request)]
    ∧ ({[ "model"; "input"; "store" ]} : gset string) ⊆ dom request
    ∧ dom request ⊆ {[ "model"; "input"; "store"; "instructions" ]}
    ∧ request !! "api_key" = None.
Proof.
  apply (request_fields demo_world "sk-env").
  - vm_compute. reflexivity.
  - discriminate.
Defined.

(** X5: the client used for the request skips TLS verification exactly
    when [OPENAI_ALLOW_INSECURE_SSL] is "1" in the environment after the
    [.env] loading, so a [.env] file that binds the flag switches the
    verification off when the process environment leaves the flag unset. *)
Theorem run_tls_verification (w : World) (k : string) :
  loaded_environ w !! "OPENAI_API_KEY" = Some k → k ≠ "" →
  ∃ client request,
    requests (trace (run w).2) = [(client, request)]
    ∧ (tls_verify client = false
       ↔ loaded_environ w !! "OPENAI_ALLOW_INSECURE_SSL" = Some "1")
    ∧ (NewHttpxClient false ∈ trace (run w).2
       ↔ loaded_environ w !! "OPENAI_ALLOW_INSECURE_SSL" = Some "1").
Proof.
  intros Hk Hne. pose proof (resolved_key_truthy w k Hk Hne) as Ht.
  exists (the_client w), (the_request w).
  split; [by apply run_requests|].
  rewrite <- eq_str_getenv. split.
  - unfold tls_verify, the_client. rewrite client_http_client.
    by destruct (eq_str _ _).
  - assert (NewHttpxClient false ∈ prefix_trace w
            ↔ eq_str (getenv_in (loaded_environ w) "OPENAI_ALLOW_INSECURE_SSL") "1" = true)
      as Hp.
    { unfold prefix_trace, client_effects. rewrite !elem_of_app.
      destruct (eq_str _ _); split; try done.
      - intros _. left. left. apply elem_of_cons. by left.
      - intros [[H|H]|H]; absent_in H. }
    assert (∀ evs, NewHttpxClient false ∉ stream_effects evs) as He.
    { induction evs as [|e evs IH]; simpl; [apply not_elem_of_nil|].
      rewrite elem_of_app. intros [H|H]; [|done].
      unfold event_effects in H. repeat case_match; absent_in H. }
    destruct (api w (the_client w) (the_request w)) as [e|s] eqn:Hapi.
    + by rewrite (run_enter_fails w e Ht Hapi).
    + rewrite (run_entered w s Ht Hapi). simpl.
      rewrite elem_of_app, Hp. split; [|by left].
      intros [H|H]; [done|]. exfalso.
      unfold stream_trace in H. apply elem_of_app in H as [H|H].
      * by apply He in H.
      * destruct (raises _); absent_in H.
Qed.

Lemma run_tls_verification_witness :
  ∃ client request,
    requests (trace (run dotenv_world).2) = [(client, request)]
    ∧ tls_verify client = false
    ∧ NewHttpxClient false ∈ trace (run dotenv_world).2.
Proof.
  destruct (run_tls_verification dotenv_world "sk-file")
    as (client & request & Hreq & Hv & Ht).
  - vm_compute. reflexivity.
  - discriminate.
  - exists client, request. split; [exact Hreq|]. split.
    + apply Hv. vm_compute. reflexivity.
    + apply Ht. vm_compute. reflexivity.
Defined.

(** X6: a variable that the process environment leaves unset is supplied
    by the [.env] file, by its last binding of the variable, when the value
    bound is written without a [${NAME}] reference (python-dotenv expands
    such references, and the value is then not the text in the file); with
    the API key supplied this way the run issues its request through a
    client that carries that key. *)
Theorem dotenv_supplies_key (w : World) (bs : Dotenv.Bindings) (k : string) :
  environ w !! "OPENAI_API_KEY" = None →
  dotenv_files w !! ".env" = Some bs →
  Dotenv.to_dict bs !! "OPENAI_API_KEY" = Some (Some k) →
  has_interpolation k = false → k ≠ "" →
  ∃ client request,
    requests (trace (run w).2) = [(client, request)]
    ∧ client !! "api_key" = Some (VStr k).
Proof.
  intros Henv Hf Hd _ Hne.
  assert (loaded_environ w !! "OPENAI_API_KEY" = Some k) as Hk
    by (by eapply load_values_supplies).
  exists (the_client w), (the_request w).
  split; [apply run_requests; by eapply resolved_key_truthy|].
  unfold the_client. rewrite client_api_key.
  unfold resolved_key, getenv_in. by rewrite Hk.
Qed.

Lemma dotenv_supplies_key_witness :
  ∃ client request,
    requests (trace (run dotenv_world).2) = [(client, request)]
    ∧ client !! "api_key" = Some (VStr "sk-file").
Proof.
  apply (dotenv_supplies_key dotenv_world
           [("OPENAI_API_KEY", Some "sk-old");
            ("OPENAI_API_KEY", Some "sk-file");
            ("OPENAI_ALLOW_INSECURE_SSL", Some "1")]).
  - vm_compute. reflexivity.
  - vm_compute. reflexivity.
  - vm_compute. reflexivity.
  - reflexivity.
  - discriminate.
Defined.

(** X7: the request depends on the model variable and the two prompt files
    only: two runs that agree on these issue the same request, whatever
    their API keys, base URLs, TLS flags and remote behaviour are. *)
Theorem request_independent_of_credentials (w1 w2 : World) (k1 k2 : string) :
  loaded_environ w1 !! "OPENAI_API_KEY" = Some k1 → k1 ≠ "" →
  loaded_environ w2 !! "OPENAI_API_KEY" = Some k2 → k2 ≠ "" →
  loaded_environ w1 !! "OPENAI_MODEL" = loaded_environ w2 !! "OPENAI_MODEL" →
  files w1 !! INSTRUCTIONS_FILE = files w2 !! INSTRUCTIONS_FILE →
  files w1 !! SYSTEM_PROMPT_FILE = files w2 !! SYSTEM_PROMPT_FILE →
  (requests (trace (run w1).2)).*2 = (requests (trace (run w2).2)).*2
  ∧ length (requests (trace (run w1).2)) = 1.
Proof.
  intros Hk1 Hne1 Hk2 Hne2 Hm Hi Hs.
  assert (the_request w1 = the_request w2) as Hreq.
  { unfold the_request, stream_kwargs_of, load_instructions, load_system_prompt.
    by rewrite Hm, Hi, Hs. }
  rewrite !run_requests by (by eapply resolved_key_truthy). simpl.
  by rewrite Hreq.
Qed.

Lemma request_independent_of_credentials_witness :
  (requests (trace (run failing_world).2)).*2
  = (requests (trace (run refused_world).2)).*2
  ∧ length (requests (trace (run failing_world).2)) = 1.
Proof.
  apply (request_independent_of_credentials failing_world refused_world
           "sk-env" "sk-other");
    try discriminate; vm_compute; reflexivity.
Defined.

(** X8: [build_openai_client] only constructs: it returns a client that
    always has [api_key], has no field besides [api_key], [base_url] and
    [http_client], leaves [os.environ] as it is and writes nothing to the
    standard streams. *)
Theorem build_openai_client_only_constructs
    (env : gmap string string) (api_key : Value) (t : list Effect) (fd : Fd) :
  ∃ client st',
    build_openai_client api_key (mkState env t) = (Ret client, st')
    ∧ client !! "api_key" = Some api_key
    ∧ dom client ⊆ {[ "api_key"; "base_url"; "http_client" ]}
    ∧ os_environ st' = env
    ∧ written fd (trace st') = written fd t
    ∧ requests (trace st') = requests t.
Proof.
  eexists _, _. split; [apply build_openai_client_run|]. simpl.
  split; [apply client_api_key|]. split.
  { unfold client_kwargs_of. destruct (eq_str _ _), (truthy _);
      rewrite ?dom_insert_L, dom_singleton_L; set_solver. }
  split; [done|].
  rewrite written_app, requests_app, requests_client_effects, app_nil_r.
  split; [|done]. unfold client_effects.
  destruct (eq_str _ _), fd; simpl; by rewrite append_nil_r.
Qed.

(** ** The prompt files *)

Lemma rstrip_keeps_head c r :
  isspace c = false → ∃ r', rstrip (String c r) = String c r'.
Proof.
  intros Hc. simpl. destruct (rstrip r); [rewrite Hc|]; eauto.
Qed.

Lemma lstrip_head_not_space s : head_not_space (lstrip s) = true.
Proof.
  induction s as [|c s IH]; simpl; [done|].
  destruct (isspace c) eqn:E; [done|]. simpl. by rewrite E.
Qed.

Lemma rstrip_head_not_space s :
  head_not_space s = true → head_not_space (rstrip s) = true.
Proof.
  destruct s as [|c r]; [done|]. simpl. intros Hc%negb_true_iff.
  destruct (rstrip r); [rewrite Hc|]; simpl; by rewrite Hc.
Qed.

Lemma rstrip_last_not_space s : last_not_space (rstrip s) = true.
Proof.
  induction s as [|c s IH]; simpl; [done|].
  destruct (rstrip s) as [|c' r'] eqn:E.
  - destruct (isspace c) eqn:Hc; simpl; [done|]. by rewrite Hc.
  - exact IH.
Qed.

Lemma head_not_space_lstrip s : head_not_space s = true → lstrip s = s.
Proof.
  destruct s as [|c r]; [done|]. simpl. by intros ->%negb_true_iff.
Qed.

Lemma last_not_space_rstrip s : last_not_space s = true → rstrip s = s.
Proof.
  induction s as [|c s IH]; [done|]. intros H. simpl.
  destruct s as [|c' r'].
  - simpl in *. apply negb_true_iff in H. by rewrite H.
  - rewrite IH by exact H. done.
Qed.

(** The result of trimming is trimmed. *)
Lemma strip_idempotent s : strip (strip s) = strip s.
Proof.
  unfold strip.
  rewrite (head_not_space_lstrip (rstrip (lstrip s)))
    by apply rstrip_head_not_space, lstrip_head_not_space.
  apply last_not_space_rstrip, rstrip_last_not_space.
Qed.

Lemma load_text_normal_form text :
  let v := or_ (VStr (strip text)) VNone in
  v = VNone
  ∨ ∃ X, v = VStr X ∧ X ≠ "" ∧ strip X = X
         ∧ head_not_space X = true ∧ last_not_space X = true.
Proof.
  unfold or_. simpl. destruct (String.eqb (strip text) "") eqn:E; simpl.
  - by left.
  - right. exists (strip text). apply String.eqb_neq in E.
    split; [done|]. split; [done|]. split; [apply strip_idempotent|].
    unfold strip. split.
    + apply rstrip_head_not_space, lstrip_head_not_space.
    + apply rstrip_last_not_space.
Qed.

(** X9: what the two loaders return is either [None] or a non-empty string
    with no whitespace at either end (a fixed point of trimming): neither
    the instructions nor the system prompt is ever an empty or blank
    string, and [None] is returned exactly when the file is absent or
    holds only whitespace. *)
Theorem loaders_return_none_or_trimmed_text (w : World) :
  (load_instructions w = VNone
   ∨ ∃ X, load_instructions w = VStr X ∧ X ≠ "" ∧ strip X = X
          ∧ head_not_space X = true ∧ last_not_space X = true)
  ∧ (load_system_prompt w = VNone
     ∨ ∃ X, load_system_prompt w = VStr X ∧ X ≠ "" ∧ strip X = X
            ∧ head_not_space X = true ∧ last_not_space X = true)
  ∧ (load_instructions w = VNone
     ↔ match files w !! INSTRUCTIONS_FILE with
       | Some text => all_space text = true
       | None => True
       end)
  ∧ (load_system_prompt w = VNone
     ↔ match files w !! SYSTEM_PROMPT_FILE with
       | Some text => all_space text = true
       | None => True
       end).
Proof.
  unfold load_instructions, load_system_prompt.
  split; [destruct (files w !! INSTRUCTIONS_FILE);
            [apply load_text_normal_form | by left]|].
  split; [destruct (files w !! SYSTEM_PROMPT_FILE);
            [apply load_text_normal_form | by left]|].
  split.
  - destruct (files w !! INSTRUCTIONS_FILE) as [text|]; [|done].
    rewrite <- strip_empty_iff. unfold or_. simpl.
    destruct (String.eqb (strip text) "") eqn:E; simpl.
    + by apply String.eqb_eq in E.
    + apply String.eqb_neq in E. split; [done|]. by intros ?.
  - destruct (files w !! SYSTEM_PROMPT_FILE) as [text|]; [|done].
    rewrite <- strip_empty_iff. unfold or_. simpl.
    destruct (String.eqb (strip text) "") eqn:E; simpl.
    + by apply String.eqb_eq in E.
    + apply String.eqb_neq in E. split; [done|]. by intros ?.
Qed.

(** X10: when the system-prompt file holds a non-empty trimmed text [X]
    with whitespace around it, the content of the system message is
    exactly [X], and the user message is unchanged. *)
Theorem system_prompt_content (w : World) (k ws1 X ws2 : string) :
  loaded_environ w !! "OPENAI_API_KEY" = Some k → k ≠ "" →
  files w !! SYSTEM_PROMPT_FILE = Some (ws1 +:+ X +:+ ws2) →
  all_space ws1 = true → all_space ws2 = true → X ≠ "" → strip X = X →
  ∃ client request,
    requests (trace (run w).2) = [(client, request)]
    ∧ request !! "input"
      = Some (VList [
          VDict [("role", VStr "system"); ("content", VStr X)];
          VDict [("role", VStr "user");
                 ("content", VList [VDict [("type", VStr "input_text");
                                            ("text", VStr PROMPT_TEXT)]])]]).
Proof.
  intros Hk Hne Hf H1 H2 HX Hfix. exists (the_client w), (the_request w).
  split; [apply run_requests; by eapply resolved_key_truthy|].
  rewrite request_input, (load_system_prompt_text w _ Hf).
  rewrite (strip_surrounded ws1 X ws2) by done.
  apply String.eqb_neq in HX. by rewrite HX.
Qed.

Lemma system_prompt_content_witness :
  ∃ client request,
    requests (trace (run dotenv_world).2) = [(client, request)]
    ∧ request !! "input"
      = Some (VList [
          VDict [("role", VStr "system"); ("content", VStr "Be brief.")];
          VDict [("role", VStr "user");
                 ("content", VList [VDict [("type", VStr "input_text");
                                            ("text", VStr PROMPT_TEXT)]])]]).
Proof.
  apply (system_prompt_content dotenv_world "sk-file" LF "Be brief." " ").
  - vm_compute. reflexivity.
  - discriminate.
  - vm_compute. reflexivity.
  - reflexivity.
  - reflexivity.
  - discriminate.
  - vm_compute. reflexivity.
Defined.

(** ** The stream consumer *)

Lemma stream_effects_app evs1 evs2 :
  stream_effects (evs1 ++ evs2) = stream_effects evs1 ++ stream_effects evs2.
Proof.
  induction evs1 as [|e evs1 IH]; simpl; [done|].
  by rewrite IH, app_assoc.
Qed.

Lemma event_effects_unrecognised e : recognised e = false → event_effects e = [].
Proof.
  unfold recognised, is_delta, is_completed, event_effects.
  intros [-> ->]%orb_false_iff. done.
Qed.

Lemma stream_effects_filter evs :
  stream_effects (List.filter recognised evs) = stream_effects evs.
Proof.
  induction evs as [|e evs IH]; simpl; [done|].
  destruct (recognised e) eqn:E; simpl; rewrite IH; [done|].
  by rewrite (event_effects_unrecognised e E).
Qed.

Lemma flushes_app t1 t2 : flushes (t1 ++ t2) = flushes t1 + flushes t2.
Proof.
  induction t1 as [|e t1 IH]; simpl; [done|].
  destruct e as [| [] | | | | |]; simpl; by rewrite ?IH.
Qed.

Lemma flushes_stream_effects evs :
  flushes (stream_effects evs) = length (List.filter recognised evs).
Proof.
  induction evs as [|e evs IH]; simpl; [done|].
  rewrite flushes_app, IH.
  unfold recognised, is_delta, is_completed, event_effects.
  destruct (String.eqb (type e) "response.output_text.delta"); simpl; [done|].
  by destruct (String.eqb (type e) "response.completed").
Qed.

(** X11: consuming a stream is compositional: consuming [evs1 ++ evs2] is
    consuming [evs1] to exhaustion and then [evs2], with the same result
    and the same final state, so what has been written after a prefix of
    the events does not depend on the events still to come. *)
Theorem stream_response_text_app
    (evs1 evs2 : list ResponseStreamEvent) (end_ : option Exn) (st : State) :
  stream_response_text (mkIterable (evs1 ++ evs2) end_) st
  = (stream_response_text (mkIterable evs1 None) ;;
     stream_response_text (mkIterable evs2 end_)) st.
Proof.
  destruct st as [env t]. unfold mbind, M_bind.
  repeat (rewrite stream_response_text_run; simpl).
  by rewrite stream_effects_app, app_assoc.
Qed.

(** X12: events of any kind other than the text delta and the completion
    leave no trace at all: removing them from the stream changes neither
    the result, nor the writes and flushes, nor the environment. *)
Theorem unrecognised_events_leave_no_trace
    (evs : list ResponseStreamEvent) (end_ : option Exn) (st : State) :
  stream_response_text (mkIterable (List.filter recognised evs) end_) st
  = stream_response_text (mkIterable evs end_) st.
Proof.
  destruct st as [env t]. rewrite !stream_response_text_run. simpl.
  by rewrite stream_effects_filter.
Qed.

(** X13: standard output is flushed once for each text-delta or completion
    event, and right after such an event has been handled the flush is the
    last thing done: the text of an event is flushed before the next event
    is awaited. *)
Theorem flush_after_each_recognised_event
    (evs : list ResponseStreamEvent) (e : ResponseStreamEvent)
    (env : gmap string string) (t : list Effect) :
  recognised e = true →
  let st' := (stream_response_text (mkIterable (evs ++ [e]) None)
                (mkState env t)).2 in
  last (trace st') = Some (Flush Stdout)
  ∧ flushes (trace st')
    = flushes t + length (List.filter recognised (evs ++ [e])).
Proof.
  intros He. simpl. rewrite stream_response_text_run. simpl. split.
  - rewrite stream_effects_app. simpl. rewrite app_nil_r.
    unfold recognised, is_delta, is_completed in He. unfold event_effects.
    destruct (String.eqb (type e) "response.output_text.delta").
    + change [Write Stdout (delta e); Write Stdout ""; Flush Stdout]
        with ([Write Stdout (delta e); Write Stdout ""] ++ [Flush Stdout]).
      by rewrite !app_assoc, last_snoc.
    + simpl in He. rewrite He.
      change [Write Stdout LF; Flush Stdout]
        with ([Write Stdout LF] ++ [Flush Stdout]).
      by rewrite !app_assoc, last_snoc.
  - by rewrite flushes_app, flushes_stream_effects.
Qed.

Lemma flush_after_each_recognised_event_witness :
  let st' := (stream_response_text
                (mkIterable ([delta_event "Hi"; mkEvent "response.created" ""]
                             ++ [delta_event " there"]) None)
                (mkState ∅ [])).2 in
  last (trace st') = Some (Flush Stdout)
  ∧ flushes (trace st') = 2.
Proof.
  apply (flush_after_each_recognised_event
           [delta_event "Hi"; mkEvent "response.created" ""]
           (delta_event " there") ∅ []).
  reflexivity.
Defined.

(** ** The outcomes of a run *)

Lemma final_response_calls_app t1 t2 :
  final_response_calls (t1 ++ t2)
  = final_response_calls t1 + final_response_calls t2.
Proof.
  induction t1 as [|e t1 IH]; simpl; [done|].
  destruct e; simpl; by rewrite ?IH.
Qed.

Lemma final_response_calls_stream_effects evs :
  final_response_calls (stream_effects evs) = 0.
Proof.
  induction evs as [|e evs IH]; simpl; [done|].
  rewrite final_response_calls_app, IH. unfold event_effects.
  by repeat case_match.
Qed.

Lemma final_response_calls_prefix_trace w :
  final_response_calls (prefix_trace w) = 0.
Proof.
  unfold prefix_trace, client_effects.
  rewrite !final_response_calls_app. by destruct (eq_str _ _).
Qed.

Lemma written_prefix_trace fd w : written fd (prefix_trace w) = "".
Proof.
  unfold prefix_trace, client_effects. rewrite !written_app.
  by destruct (eq_str _ _), fd.
Qed.

Lemma written_stdout_stream_trace s :
  written Stdout (stream_trace s) = concat_text (items (stream_events s)).
Proof.
  unfold stream_trace. rewrite written_app, written_stream_effects.
  destruct (raises _); simpl; by rewrite append_nil_r.
Qed.

Lemma written_stderr_stream_trace s : written Stderr (stream_trace s) = "".
Proof.
  unfold stream_trace. rewrite written_app, written_stderr_stream_effects.
  by destruct (raises _).
Qed.

(** X14: when opening the stream fails, the error propagates out of
    [main] (exit status 1 for an ordinary exception) after exactly one
    request; nothing has been written to either standard stream, the final
    response is not asked for, and no stream is closed, none having been
    entered. *)
Theorem enter_failure_propagates (w : World) (k name : string) :
  loaded_environ w !! "OPENAI_API_KEY" = Some k → k ≠ "" →
  (∀ client request, api w client request = inl (Exception name)) →
  (run w).1 = Raise (Exception name)
  ∧ exit_status (run w).1 = 1%Z
  ∧ length (requests (trace (run w).2)) = 1
  ∧ written Stdout (trace (run w).2) = ""
  ∧ written Stderr (trace (run w).2) = ""
  ∧ final_response_calls (trace (run w).2) = 0
  ∧ closes (trace (run w).2) = 0.
Proof.
  intros Hk Hne Hapi.
  rewrite (run_enter_fails w _ (resolved_key_truthy w k Hk Hne) (Hapi _ _)).
  simpl. rewrite requests_prefix_trace, !written_prefix_trace,
    final_response_calls_prefix_trace, closes_prefix_trace. done.
Qed.

Lemma enter_failure_propagates_witness :
  (run refused_world).1 = Raise (Exception "openai.APIConnectionError")
  ∧ exit_status (run refused_world).1 = 1%Z
  ∧ length (requests (trace (run refused_world).2)) = 1
  ∧ written Stdout (trace (run refused_world).2) = ""
  ∧ written Stderr (trace (run refused_world).2) = ""
  ∧ final_response_calls (trace (run refused_world).2) = 0
  ∧ closes (trace (run refused_world).2) = 0.
Proof.
  apply (enter_failure_propagates refused_world "sk-other").
  - vm_compute. reflexivity.
  - discriminate.
  - intros client request. reflexivity.
Defined.

(** X15: in a run that enters the stream, what reaches standard output is
    exactly the text of the events delivered, whether the run then
    succeeds or fails, and nothing is written to the error stream; the
    final response is asked for once when the events end normally and not
    at all when the event stream raises. *)
Theorem run_output_is_the_streamed_text
    (w : World) (k : string) (s : ResponseStream) :
  loaded_environ w !! "OPENAI_API_KEY" = Some k → k ≠ "" →
  (∀ client request, api w client request = inr s) →
  written Stdout (trace (run w).2) = concat_text (items (stream_events s))
  ∧ written Stderr (trace (run w).2) = ""
  ∧ final_response_calls (trace (run w).2)
    = match raises (stream_events s) with Some _ => 0 | None => 1 end.
Proof.
  intros Hk Hne Hapi.
  rewrite (run_entered w s (resolved_key_truthy w k Hk Hne) (Hapi _ _)).
  simpl. rewrite !written_app, !written_prefix_trace,
    written_stdout_stream_trace, written_stderr_stream_trace.
  split; [done|]. split; [done|].
  rewrite final_response_calls_app, final_response_calls_prefix_trace.
  unfold stream_trace.
  rewrite final_response_calls_app, final_response_calls_stream_effects.
  by destruct (raises _).
Qed.

Lemma run_output_is_the_streamed_text_witness :
  written Stdout (trace (run failing_world).2) = "Hi"
  ∧ written Stderr (trace (run failing_world).2) = ""
  ∧ final_response_calls (trace (run failing_world).2) = 0.
Proof.
  apply (run_output_is_the_streamed_text failing_world "sk-env"
           (mkStream (mkIterable [delta_event "Hi"]
                                 (Some (Exception "httpx.ReadError")))
                     None)).
  - vm_compute. reflexivity.
  - discriminate.
  - intros client request. reflexivity.
Defined.

(** X16: a run that enters the stream returns normally, with exit status
    0, exactly when the events end without an exception and the final
    response is obtained; an error of [get_final_response] propagates out
    of [main] after all the text has been written, and the stream is still
    closed. *)
Theorem run_succeeds_iff_stream_and_final_response_do
    (w : World) (k : string) (s : ResponseStream) :
  loaded_environ w !! "OPENAI_API_KEY" = Some k → k ≠ "" →
  (∀ client request, api w client request = inr s) →
  ((run w).1 = Ret tt
   ↔ raises (stream_events s) = None ∧ final_response s = None)
  ∧ ((run w).1 = Ret tt → exit_status (run w).1 = 0%Z)
  ∧ (∀ name, raises (stream_events s) = None →
       final_response s = Some (Exception name) →
       (run w).1 = Raise (Exception name)
       ∧ exit_status (run w).1 = 1%Z
       ∧ closes (trace (run w).2) = 1
       ∧ last (trace (run w).2) = Some StreamClose).
Proof.
  intros Hk Hne Hapi.
  rewrite (run_entered w s (resolved_key_truthy w k Hk Hne) (Hapi _ _)).
  simpl. unfold stream_outcome. split; [|split].
  - destruct (raises _), (final_response s); split; try done; by intros [].
  - by intros ->.
  - intros name -> ->.
    by rewrite closes_app, closes_prefix_trace, closes_stream_trace,
      last_stream_trace.
Qed.

Lemma run_succeeds_iff_stream_and_final_response_do_witness :
  (run unfinished_world).1 = Raise (Exception "RuntimeError")
  ∧ exit_status (run unfinished_world).1 = 1%Z
  ∧ closes (trace (run unfinished_world).2) = 1
  ∧ last (trace (run unfinished_world).2) = Some StreamClose.
Proof.
  destruct (run_succeeds_iff_stream_and_final_response_do unfinished_world
              "sk-env"
              (mkStream
                 (mkIterable [delta_event "Hi"; mkEvent "response.created" ""]
                             None)
                 (Some (Exception "RuntimeError"))))
    as (_ & _ & Hfinal).
  - vm_compute. reflexivity.
  - discriminate.
  - intros client request. reflexivity.
  - apply (Hfinal "RuntimeError"); reflexivity.
Defined.
